(** * alert_watcher: a shallow embedding of [watcher.py]

    The development follows the source file top to bottom: the module
    constants read from the environment ([Config]), [send_slack],
    [parse_line] with the tokenizer [KV_RE], the bounded [deque] that holds
    the error window, and one iteration of the loop of [main].

    Scope of the string model.  A log line is a [string]; a character below
    128 is the ASCII character of that code, with the classes Python's [re]
    and [str] give it.  A character from 128 on stands for a code point that
    is neither a word character, nor white space, nor cased, nor a digit. *)

From Stdlib Require Import ZArith Lia Bool List Ascii String Floats.
From stdpp Require Import base option list strings gmap.

Local Open Scope string_scope.
Local Open Scope Z_scope.
Local Open Scope list_scope.

(** ** Exceptions

    A call either returns a value or raises.  The only exception the
    modelled code can meet is the [ValueError] of [int] and of
    [deque(maxlen=...)]. *)

Inductive exn : Type := ValueError.

Inductive outcome (A : Type) : Type :=
| Returned (a : A)
| Raised (e : exn).
Arguments Returned {A} a.
Arguments Raised {A} e.

Definition bind {A B : Type} (m : outcome A) (k : A -> outcome B) : outcome B :=
  match m with
  | Returned a => k a
  | Raised e => Raised e
  end.

(** [try: m  except Exception: h] *)
Definition try_except {A : Type} (m : outcome A) (h : outcome A) : outcome A :=
  match m with
  | Returned a => Returned a
  | Raised _ => h
  end.

Notation "'let!' x ':=' m 'in' k" := (bind m (fun x => k))
  (at level 10, x name, m at level 100, k at level 200).

(** ** Characters and strings, as [re] and [str] see them *)

Module Py.

Definition code (c : ascii) : N := N_of_ascii c.

Definition in_range (lo hi : N) (c : ascii) : bool :=
  (N.leb lo (code c)) && (N.leb (code c) hi).

Definition is_upper (c : ascii) : bool := in_range 65 90 c.
Definition is_lower (c : ascii) : bool := in_range 97 122 c.
Definition is_digit (c : ascii) : bool := in_range 48 57 c.

(** [\w] of a str pattern (the class [[\w_]] adds nothing to it). *)
Definition is_word (c : ascii) : bool :=
  is_upper c || is_lower c || is_digit c || N.eqb (code c) 95.

(** [\s] of a str pattern, which is also what [str.isspace] accepts:
    TAB, LF, VT, FF, CR, the separators 0x1C..0x1F and the space. *)
Definition is_space (c : ascii) : bool :=
  in_range 9 13 c || in_range 28 31 c || N.eqb (code c) 32.

Definition lower_char (c : ascii) : ascii :=
  if is_upper c then ascii_of_N (code c + 32) else c.

(** [s.lower()] *)
Fixpoint lower (s : string) : string :=
  match s with
  | EmptyString => EmptyString
  | String c s' => String (lower_char c) (lower s')
  end.

(** [bool(s)] of a str: the empty string is falsy. *)
Definition truthy (s : string) : bool :=
  match s with EmptyString => false | String _ _ => true end.

Fixpoint drop_while (p : ascii -> bool) (s : string) : string :=
  match s with
  | EmptyString => EmptyString
  | String c s' => if p c then drop_while p s' else s
  end.

Fixpoint rev_onto (s acc : string) : string :=
  match s with
  | EmptyString => acc
  | String c s' => rev_onto s' (String c acc)
  end.

Definition rev (s : string) : string := rev_onto s EmptyString.

(** [s.strip(chars)] with the set of characters given as a predicate. *)
Definition strip (p : ascii -> bool) (s : string) : string :=
  rev (drop_while p (rev (drop_while p s))).

Definition is_dquote (c : ascii) : bool := N.eqb (code c) 34.

(** [needle in hay] *)
Fixpoint contains (needle hay : string) : bool :=
  String.prefix needle hay ||
  match hay with
  | EmptyString => false
  | String _ hay' => contains needle hay'
  end.

(** Longest prefix of [s] whose characters all satisfy [p], and the rest:
    what a greedy [[class]+] consumes when nothing after it can fail. *)
Fixpoint span (p : ascii -> bool) (s : string) : string * string :=
  match s with
  | EmptyString => (EmptyString, EmptyString)
  | String c s' =>
      if p c then let '(a, b) := span p s' in (String c a, b)
      else (EmptyString, s)
  end.

(** *** [int(s)] for a str argument, base 10

    White space around the literal is dropped, one sign is allowed, and the
    digits may be grouped by single underscores; anything else raises
    [ValueError].  [max_digits] is the interpreter's
    [sys.get_int_max_str_digits()]: a literal with more digits raises too,
    and [0] switches the limit off. *)

Definition digit_val (c : ascii) : Z := Z.of_N (code c) - 48.

(** [digits acc n prev_digit s]: the value of the digit run [s], [acc]
    being the value and [n] the number of the digits already read, and
    [prev_digit] telling whether the last character read was a digit. *)
Fixpoint digits (acc : Z) (n : nat) (prev_digit : bool) (s : string)
  : option (Z * nat) :=
  match s with
  | EmptyString => if prev_digit then Some (acc, n) else None
  | String c s' =>
      if is_digit c then digits (10 * acc + digit_val c) (S n) true s'
      else if N.eqb (code c) 95 && prev_digit then digits acc n false s'
      else None
  end.

Definition unsigned (max_digits : nat) (s : string) : outcome Z :=
  match digits 0 0%nat false s with
  | Some (v, n) =>
      if Nat.ltb 0 max_digits && Nat.ltb max_digits n
      then Raised ValueError else Returned v
  | None => Raised ValueError
  end.

Definition int (max_digits : nat) (s : string) : outcome Z :=
  match strip is_space s with
  | String "+" r => unsigned max_digits r
  | String "-" r => let! v := unsigned max_digits r in Returned (- v)
  | r => unsigned max_digits r
  end.

(** [x or y] on str values that may be [None] *)
Definition or_else (x : option string) (y : string) : string :=
  match x with
  | Some v => if truthy v then v else y
  | None => y
  end.

End Py.

(** ** The configuration read from the environment (module constants) *)

Record Config : Type := {
  SLACK_WEBHOOK_URL : option string;
  ACTIVE_POOL : string;
  ERROR_RATE_THRESHOLD : float;
  WINDOW_SIZE : Z;
  ALERT_COOLDOWN_SEC : Z;
  MAINTENANCE_MODE : bool;
  (** not a constant of the module: the interpreter's limit on the digits
      [int] accepts *)
  int_max_str_digits : nat
}.

(** ** [send_slack]

    What [requests.post] did is an input: it returned a response with a
    status code, or it raised. *)

Inductive http : Type :=
| Response (status_code : Z)
| PostRaised.

Definition send_slack (cfg : Config) (post : http) : bool :=
  match SLACK_WEBHOOK_URL cfg with
  | None => false
  | Some url =>
      if negb (Py.truthy url) then false
      else match post with
           | Response status_code => if 400 <=? status_code then false else true
           | PostRaised => false
           end
  end.

(** ** [KV_RE] and [parse_line] *)

(** One attempt of [(\b[\w_]+)=([^\s]+)] at the head of [s]; [prev_word]
    tells whether the character before it is a word character.  The key
    starts with a word character, so [\b] holds exactly when the character
    before is not one.  The greedy key run has to be the whole run of word
    characters, since after a shorter one the next character is a word
    character and not [=]; the value run is the whole run of characters that
    are not white space.  The result is [(group 1, group 2)]. *)
Definition match_at (prev_word : bool) (s : string) : option (string * string) :=
  if prev_word then None
  else
    let '(k, r) := Py.span Py.is_word s in
    if negb (Py.truthy k) then None
    else match r with
         | String "=" r' =>
             let '(v, _) := Py.span (fun c => negb (Py.is_space c)) r' in
             if Py.truthy v then Some (k, v) else None
         | _ => None
         end.

(** [KV_RE.finditer]: the matches from left to right, none overlapping.
    [skip] counts the characters still covered by the match found last. *)
Fixpoint finditer_from (skip : nat) (prev_word : bool) (s : string)
  : list (string * string) :=
  match s with
  | EmptyString => []
  | String c s' =>
      match skip with
      | S n => finditer_from n (Py.is_word c) s'
      | O =>
          match match_at prev_word s with
          | Some (k, v) =>
              (k, v) :: finditer_from (String.length k + String.length v)
                                      (Py.is_word c) s'
          | None => finditer_from 0 (Py.is_word c) s'
          end
      end
  end.

Definition finditer (line : string) : list (string * string) :=
  finditer_from 0 false line.

(** The dict comprehension: the tokens are stored in the order they are
    found, the value stripped of the double quotes around it. *)
Definition store_token (d : gmap string string) (m : string * string)
  : gmap string string :=
  <[ m.1 := Py.strip Py.is_dquote m.2 ]> d.

Definition fields_of (line : string) : gmap string string :=
  foldl store_token ∅ (finditer line).

Record LogRecord : Type := {
  status : option Z;
  pool : option string;
  release : string;
  upstream_status : string;
  upstream_addr : string;
  request_time : string;
  upstream_response_time : string;
  raw : string
}.

(** The [if]/[elif] that assigns the local [pool]. *)
Definition pool_of_fields (fields : gmap string string) : option string :=
  match fields !! "pool" with
  | Some p =>
      if Py.truthy p then Some p
      else match fields !! "upstream_addr" with
           | Some upstream =>
               if Py.contains "app-blue" upstream then Some "blue"
               else if Py.contains "app-green" upstream then Some "green"
               else None
           | None => None
           end
  | None =>
      match fields !! "upstream_addr" with
      | Some upstream =>
          if Py.contains "app-blue" upstream then Some "blue"
          else if Py.contains "app-green" upstream then Some "green"
          else None
      | None => None
      end
  end.

(** [(pool or "").lower() if pool else None] *)
Definition pool_entry (p : option string) : option string :=
  match p with
  | Some v => if Py.truthy v then Some (Py.lower (Py.or_else p "")) else None
  | None => None
  end.

Definition parse_line (cfg : Config) (line : string) : outcome LogRecord :=
  let fields := fields_of line in
  let! status :=
    match fields !! "status" with
    | Some v =>
        try_except
          (let! n := Py.int (int_max_str_digits cfg) v in Returned (Some n))
          (Returned None)
    | None => Returned None
    end in
  let pool := pool_of_fields fields in
  Returned {|
    status := status;
    pool := pool_entry pool;
    release := Py.or_else (fields !! "release") "unknown";
    upstream_status := Py.or_else (fields !! "upstream_status") "-";
    upstream_addr := Py.or_else (fields !! "upstream_addr") "-";
    request_time := Py.or_else (fields !! "request_time") "-";
    upstream_response_time := Py.or_else (fields !! "upstream_response_time") "-";
    raw := line
  |}.

(** ** [collections.deque] with a bound *)

Record deque : Type := {
  items : list Z;    (* oldest first *)
  maxlen : Z
}.

(** [deque(maxlen=n)]: a negative bound is refused. *)
Definition deque_new (n : Z) : outcome deque :=
  if n <? 0 then Raised ValueError
  else Returned {| items := []; maxlen := n |}.

Definition len (d : deque) : Z := Z.of_nat (length (items d)).

(** [d.append(x)]: the element goes to the right end; when that makes the
    deque longer than its bound, the leftmost element is popped. *)
Definition append (x : Z) (d : deque) : deque :=
  let l := items d ++ [x] in
  {| items := if maxlen d <? Z.of_nat (length l) then tail l else l;
     maxlen := maxlen d |}.

(** [sum(d)] *)
Definition sum (d : deque) : Z := foldl Z.add 0 (items d).

(** ** Numbers

    [time.time()], the threshold and the error rate are binary64 floats, and
    so are they here.  [float_of_int] is the conversion an [int] operand
    undergoes; it is exact up to [2^53], far above any length the window can
    have, and the quotient of two such operands is the correctly rounded one
    that [int / int] yields. *)

Definition float_of_int (n : Z) : float := of_uint63 (Uint63.of_Z n).

(** [x >= n] for a float [x] and an int [n]: Python compares the exact
    values, and a NaN compares false. *)
Definition float_ge_int (x : float) (n : Z) : bool :=
  match Prim2SF x with
  | S754_nan => false
  | S754_infinity negative => negb negative
  | S754_zero _ => n <=? 0
  | S754_finite negative m e =>
      let v := if negative then Z.neg m else Z.pos m in
      if 0 <=? e then n <=? v * 2 ^ e else n * 2 ^ (- e) <=? v
  end.

(** ** The loop of [main] *)

(** The arguments of the three message templates.  The text sent is a
    function of them, and nothing in the loop reads it back. *)
Inductive alert : Type :=
| FailoverDetected (from_pool to_pool release upstream status : string)
| ElevatedErrorRate (rate : float) (samples : Z) (threshold : float)
                    (active_pool : option string) (upstream status : string)
| ErrorRateRecovered (rate : float) (samples : Z) (pool : option string).

Definition is_failover (a : alert) : bool :=
  match a with FailoverDetected _ _ _ _ _ => true | _ => false end.

(** One call of [send_slack]: the message and the value returned. *)
Definition call : Type := alert * bool.

Record State : Type := {
  window : deque;
  last_seen_pool : string;
  last_alert_time : gmap string float;
  alerted_error : bool
}.

(** What the outside world answers during one iteration: the clock at the
    two places that read it, and the fate of the request at the two places
    that may post one.  An answer is consumed only if its place is reached. *)
Record World : Type := {
  clock_flip : float;
  clock_rate : float;
  post_flip : http;
  post_rate : http
}.

(** The state [main] builds before the loop. *)
Definition init (cfg : Config) : outcome State :=
  let! w := deque_new (WINDOW_SIZE cfg) in
  Returned {|
    window := w;
    last_seen_pool := ACTIVE_POOL cfg;
    last_alert_time := <[ "error_rate" := 0%float ]> (<[ "failover" := 0%float ]> ∅);
    alerted_error := false
  |}.

(** [now - last_alert_time.get(kind, 0) >= ALERT_COOLDOWN_SEC] *)
Definition cooldown_over (cfg : Config) (now : float) (times : gmap string float)
    (kind : string) : bool :=
  float_ge_int (now - default 0%float (times !! kind))%float
               (ALERT_COOLDOWN_SEC cfg).

(** [pool and last_seen_pool and pool != last_seen_pool] *)
Definition flip (p : option string) (seen : string) : bool :=
  match p with
  | Some v => Py.truthy v && Py.truthy seen && negb (String.eqb v seen)
  | None => false
  end.

(** Pool flip detection (the first [if] of the loop body). *)
Definition detect_flip (cfg : Config) (w : World) (data : LogRecord) (s : State)
  : State * list call :=
  match pool data with
  | Some p =>
      if flip (pool data) (last_seen_pool s) then
        let now := clock_flip w in
        let '(times, calls) :=
          if MAINTENANCE_MODE cfg then (last_alert_time s, [])
          else if cooldown_over cfg now (last_alert_time s) "failover" then
            let text := FailoverDetected (last_seen_pool s) p (release data)
                          (upstream_addr data) (upstream_status data) in
            let sent := send_slack cfg (post_flip w) in
            (if sent then <[ "failover" := now ]> (last_alert_time s)
             else last_alert_time s,
             [(text, sent)])
          else (last_alert_time s, [])
        in
        ({| window := window s;
            last_seen_pool := p;
            last_alert_time := times;
            alerted_error := alerted_error s |}, calls)
      else (s, [])
  | None => (s, [])
  end.

(** [isinstance(status, int) and 500 <= status < 600] *)
Definition is_5xx (st : option Z) : bool :=
  match st with
  | Some n => (500 <=? n) && (n <? 600)
  | None => false
  end.

Definition sample (data : LogRecord) : Z :=
  if is_5xx (status data) then 1 else 0.

(** [(sum(window) / len(window)) * 100.0] *)
Definition error_rate (d : deque) : float :=
  (float_of_int (sum d) / float_of_int (len d) * 100)%float.

(** Error-rate tracking (the rest of the loop body). *)
Definition track_errors (cfg : Config) (w : World) (data : LogRecord) (s : State)
  : State * list call :=
  let win := append (sample data) (window s) in
  let s1 := {| window := win;
               last_seen_pool := last_seen_pool s;
               last_alert_time := last_alert_time s;
               alerted_error := alerted_error s |} in
  if 1 <=? len win then
    let rate := error_rate win in
    let now := clock_rate w in
    if (ERROR_RATE_THRESHOLD cfg <? rate)%float then
      if MAINTENANCE_MODE cfg then (s1, [])
      else if cooldown_over cfg now (last_alert_time s) "error_rate" then
        let text := ElevatedErrorRate rate (len win) (ERROR_RATE_THRESHOLD cfg)
                      (pool data) (upstream_addr data) (upstream_status data) in
        let sent := send_slack cfg (post_rate w) in
        if sent then
          ({| window := win;
              last_seen_pool := last_seen_pool s;
              last_alert_time := <[ "error_rate" := now ]> (last_alert_time s);
              alerted_error := true |}, [(text, sent)])
        else (s1, [(text, sent)])
      else (s1, [])
    else
      if alerted_error s && cooldown_over cfg now (last_alert_time s) "error_rate" then
        let text := ErrorRateRecovered rate (len win) (pool data) in
        let sent := send_slack cfg (post_rate w) in
        if sent then
          ({| window := win;
              last_seen_pool := last_seen_pool s;
              last_alert_time := <[ "error_rate" := now ]> (last_alert_time s);
              alerted_error := false |}, [(text, sent)])
        else (s1, [(text, sent)])
      else (s1, [])
  else (s1, []).

(** One iteration on an already parsed record. *)
Definition process (cfg : Config) (w : World) (data : LogRecord) (s : State)
  : State * list call :=
  let '(s1, calls1) := detect_flip cfg w data s in
  let '(s2, calls2) := track_errors cfg w data s1 in
  (s2, calls1 ++ calls2).

(** One iteration of [for line in tail_file(LOG_PATH)]. *)
Definition step (cfg : Config) (s : State) (line : string) (w : World)
  : outcome (State * list call) :=
  let! data := parse_line cfg line in
  Returned (process cfg w data s).

(** The loop over the lines read so far, with all the calls it made. *)
Fixpoint loop (cfg : Config) (s : State) (input : list (string * World))
  : outcome (State * list call) :=
  match input with
  | [] => Returned (s, [])
  | (line, w) :: rest =>
      let! r := step cfg s line w in
      let! r' := loop cfg r.1 rest in
      Returned (r'.1, r.2 ++ r'.2)
  end.

Definition main (cfg : Config) (input : list (string * World))
  : outcome (State * list call) :=
  let! s := init cfg in
  loop cfg s input.

(** The states the loop can be in between two lines. *)
Inductive reachable (cfg : Config) : State -> Prop :=
| reachable_init s :
    init cfg = Returned s -> reachable cfg s
| reachable_step s line w r :
    reachable cfg s -> step cfg s line w = Returned r -> reachable cfg r.1.

(** * Properties of the parser *)

(** The double quote, and the lines used as examples below. *)
Definition dquote : string := String (ascii_of_N 34) EmptyString.

Definition cfg_default : Config := {|
  SLACK_WEBHOOK_URL := Some "https://hooks.example/T0";
  ACTIVE_POOL := "blue";
  ERROR_RATE_THRESHOLD := 2%float;
  WINDOW_SIZE := 200;
  ALERT_COOLDOWN_SEC := 300;
  MAINTENANCE_MODE := false;
  int_max_str_digits := 4300
|}.

(** The token of a line that decides the field [k]: the last one whose
    key is [k], its value stripped of the quotes around it. *)
Definition last_token (k : string) (toks : list (string * string))
  : option (string * string) :=
  last (filter (fun m => m.1 = k) toks).

Definition last_value (k : string) (line : string) : option string :=
  (fun m => Py.strip Py.is_dquote m.2) <$> last_token k (finditer line).

(** Inferring the pool from the upstream address. *)
Definition infer_pool (upstream : option string) : option string :=
  match upstream with
  | Some u =>
      if Py.contains "app-blue" u then Some "blue"
      else if Py.contains "app-green" u then Some "green"
      else None
  | None => None
  end.

(** The rule for the pool in the words of the specification: the explicit
    field lower-cased when it is present, the inference otherwise. *)
Definition pool_rule_as_worded (explicit upstream : option string)
  : option string :=
  match explicit with
  | Some v => Some (Py.lower v)
  | None => infer_pool upstream
  end.

(** The same rule, an empty explicit value counting as no value. *)
Definition pool_rule (explicit upstream : option string) : option string :=
  match explicit with
  | Some v => if Py.truthy v then Some (Py.lower v) else infer_pool upstream
  | None => infer_pool upstream
  end.

(** What [parse_line] stores under ["status"] given the field's value. *)
Definition status_of (cfg : Config) (v : option string) : option Z :=
  match v with
  | Some s =>
      match Py.int (int_max_str_digits cfg) s with
      | Returned n => Some n
      | Raised _ => None
      end
  | None => None
  end.

(** A world in which the clock shows 1000 s and every request succeeds. *)
Definition world_ok : World := {|
  clock_flip := 1000%float;
  clock_rate := 1000%float;
  post_flip := Response 200;
  post_rate := Response 200
|}.

(** The calls of an iteration that are failover notices, and the others
    (error-rate alerts and recovery notices). *)
Definition failover_calls (cs : list call) : list call :=
  filter (fun c => is_failover c.1 = true) cs.

Definition rate_calls (cs : list call) : list call :=
  filter (fun c => is_failover c.1 = false) cs.

(** The default configuration started with [ACTIVE_POOL] set to the empty
    string. *)
Definition cfg_no_pool : Config := {|
  SLACK_WEBHOOK_URL := SLACK_WEBHOOK_URL cfg_default;
  ACTIVE_POOL := EmptyString;
  ERROR_RATE_THRESHOLD := ERROR_RATE_THRESHOLD cfg_default;
  WINDOW_SIZE := WINDOW_SIZE cfg_default;
  ALERT_COOLDOWN_SEC := ALERT_COOLDOWN_SEC cfg_default;
  MAINTENANCE_MODE := false;
  int_max_str_digits := int_max_str_digits cfg_default
|}.

(** The default configuration in maintenance mode. *)
Definition cfg_maintenance : Config := {|
  SLACK_WEBHOOK_URL := SLACK_WEBHOOK_URL cfg_default;
  ACTIVE_POOL := ACTIVE_POOL cfg_default;
  ERROR_RATE_THRESHOLD := ERROR_RATE_THRESHOLD cfg_default;
  WINDOW_SIZE := WINDOW_SIZE cfg_default;
  ALERT_COOLDOWN_SEC := ALERT_COOLDOWN_SEC cfg_default;
  MAINTENANCE_MODE := true;
  int_max_str_digits := int_max_str_digits cfg_default
|}.

(** A world one minute after [world_ok]. *)
Definition world_later : World := {|
  clock_flip := 1060%float;
  clock_rate := 1060%float;
  post_flip := Response 200;
  post_rate := Response 200
|}.

(** The default configuration with a window of two samples. *)
Definition cfg_small : Config := {|
  SLACK_WEBHOOK_URL := SLACK_WEBHOOK_URL cfg_default;
  ACTIVE_POOL := ACTIVE_POOL cfg_default;
  ERROR_RATE_THRESHOLD := ERROR_RATE_THRESHOLD cfg_default;
  WINDOW_SIZE := 2;
  ALERT_COOLDOWN_SEC := ALERT_COOLDOWN_SEC cfg_default;
  MAINTENANCE_MODE := false;
  int_max_str_digits := int_max_str_digits cfg_default
|}.

(** A world a thousand seconds after [world_ok]. *)
Definition world_recovered : World := {|
  clock_flip := 2000%float;
  clock_rate := 2000%float;
  post_flip := Response 200;
  post_rate := Response 200
|}.

(** Whether every character of [s] satisfies [p]. *)
Fixpoint all_chars (p : ascii -> bool) (s : string) : bool :=
  match s with
  | EmptyString => true
  | String c s' => p c && all_chars p s'
  end.

Definition first_char (s : string) : option ascii :=
  match s with
  | EmptyString => None
  | String c _ => Some c
  end.

Fixpoint last_char (s : string) : option ascii :=
  match s with
  | EmptyString => None
  | String c EmptyString => Some c
  | String _ s' => last_char s'
  end.

Definition not_space (c : ascii) : bool := negb (Py.is_space c).

Definition not_equals (c : ascii) : bool := negb (N.eqb (Py.code c) 61).

(** A token as the tokenizer may return it: a key made of word characters
    and a value free of white space, neither of them empty. *)
Definition token_ok (m : string * string) : Prop :=
  Py.truthy (fst m) = true /\ all_chars Py.is_word (fst m) = true /\
  Py.truthy (snd m) = true /\ all_chars not_space (snd m) = true.

(** The record of a line that carries no token. *)
Definition blank_record (line : string) : LogRecord := {|
  status := None;
  pool := None;
  release := "unknown";
  upstream_status := "-";
  upstream_addr := "-";
  request_time := "-";
  upstream_response_time := "-";
  raw := line
|}.

(** Neither end of [v] satisfies [p]. *)
Definition ends_free_of (p : ascii -> bool) (v : string) : Prop :=
  (forall c, first_char v = Some c -> p c = false) /\
  (forall c, last_char v = Some c -> p c = false).

(** A line whose release is written between quotes:
    [release=<quote>v1.4<quote> status=200]. *)
Definition line_quoted_release : string :=
  String.append "release="
    (String.append dquote (String.append "v1.4" (String.append dquote " status=200"))).

(** The sample a line contributes to the window: 1 when its status is an
    integer from 500 to 599, 0 otherwise. *)
Definition line_sample (cfg : Config) (line : string) : Z :=
  if is_5xx (status_of cfg (last_value "status" line)) then 1 else 0.

(** The last [n] elements of [l], all of [l] when it has fewer. *)
Definition trailing {A : Type} (n : nat) (l : list A) : list A :=
  drop (length l - n) l.

(** The default configuration with a window of no sample, and with a
    negative window size. *)
Definition cfg_zero_window : Config := {|
  SLACK_WEBHOOK_URL := SLACK_WEBHOOK_URL cfg_default;
  ACTIVE_POOL := ACTIVE_POOL cfg_default;
  ERROR_RATE_THRESHOLD := ERROR_RATE_THRESHOLD cfg_default;
  WINDOW_SIZE := 0;
  ALERT_COOLDOWN_SEC := ALERT_COOLDOWN_SEC cfg_default;
  MAINTENANCE_MODE := false;
  int_max_str_digits := int_max_str_digits cfg_default
|}.


(** A sample is 0 or 1. *)
Definition binary (x : Z) : Prop := x = 0 \/ x = 1.

(** The pool a line reports, by the rule of the parser. *)
Definition line_pool (line : string) : option string :=
  pool_rule (last_value "pool" line) (last_value "upstream_addr" line).

(** The pool of the last line that reports one, [start] when none does. *)
Definition pool_after (start : string) (input : list (string * World)) : string :=
  foldl (fun acc lw => default acc (line_pool lw.1)) start input.

(** Whether an alert is outstanding after the calls [cs], when [armed]
    tells whether one was before: a delivered elevated-rate alert arms, a
    delivered recovery notice disarms, nothing else counts. *)
Definition armed_step (armed : bool) (c : call) : bool :=
  match c with
  | (ElevatedErrorRate _ _ _ _ _ _, true) => true
  | (ErrorRateRecovered _ _ _, true) => false
  | _ => armed
  end.

Definition armed_after (armed : bool) (cs : list call) : bool :=
  foldl armed_step armed cs.

(** The default configuration without a webhook URL. *)
Definition cfg_no_webhook : Config := {|
  SLACK_WEBHOOK_URL := None;
  ACTIVE_POOL := ACTIVE_POOL cfg_default;
  ERROR_RATE_THRESHOLD := ERROR_RATE_THRESHOLD cfg_default;
  WINDOW_SIZE := WINDOW_SIZE cfg_default;
  ALERT_COOLDOWN_SEC := ALERT_COOLDOWN_SEC cfg_default;
  MAINTENANCE_MODE := false;
  int_max_str_digits := int_max_str_digits cfg_default
|}.

(** What has to hold before an iteration for the call [c] to be made in
    it, [data] being the record read, [s] the state before and [w] the
    answers of the world. *)
Definition justified (cfg : Config) (w : World) (data : LogRecord) (s : State)
    (c : call) : Prop :=
  let win := append (sample data) (window s) in
  match c.1 with
  | FailoverDetected from_pool to_pool _ _ _ =>
      MAINTENANCE_MODE cfg = false /\
      flip (pool data) (last_seen_pool s) = true /\
      cooldown_over cfg (clock_flip w) (last_alert_time s) "failover" = true /\
      from_pool = last_seen_pool s /\ pool data = Some to_pool /\
      c.2 = send_slack cfg (post_flip w)
  | ElevatedErrorRate rate _ _ _ _ _ =>
      MAINTENANCE_MODE cfg = false /\
      rate = error_rate win /\
      (ERROR_RATE_THRESHOLD cfg <? rate)%float = true /\
      cooldown_over cfg (clock_rate w) (last_alert_time s) "error_rate" = true /\
      c.2 = send_slack cfg (post_rate w)
  | ErrorRateRecovered rate _ _ =>
      alerted_error s = true /\
      rate = error_rate win /\
      (ERROR_RATE_THRESHOLD cfg <? rate)%float = false /\
      cooldown_over cfg (clock_rate w) (last_alert_time s) "error_rate" = true /\
      c.2 = send_slack cfg (post_rate w)
  end.

(** The number a run of decimal digits denotes. *)
Fixpoint decimal_from (acc : Z) (s : string) : Z :=
  match s with
  | EmptyString => acc
  | String c s' => decimal_from (10 * acc + Py.digit_val c) s'
  end.

Definition decimal (s : string) : Z := decimal_from 0 s.

(** A line whose pool token has an empty value between its quotes:
    [pool=<quote><quote> upstream_addr=app-blue:3000]. *)
Definition line_empty_pool : string :=
  String.append "pool="
    (String.append dquote (String.append dquote " upstream_addr=app-blue:3000")).

(** * Lemmas on the parser *)

Lemma store_tokens_lookup (toks : list (string * string))
    (d : gmap string string) (k : string) :
  foldl store_token d toks !! k =
  match last_token k toks with
  | Some m => Some (Py.strip Py.is_dquote m.2)
  | None => d !! k
  end.
Proof.
  revert d. unfold last_token.
  induction toks as [|m toks IH]; intros d; simpl; [reflexivity|].
  rewrite IH, filter_cons. unfold store_token.
  destruct (decide (m.1 = k)) as [Hk|Hk].
  - rewrite last_cons.
    destruct (last (filter (fun m0 => m0.1 = k) toks)); [reflexivity|].
    rewrite Hk. apply lookup_insert_eq.
  - destruct (last (filter (fun m0 => m0.1 = k) toks)); [reflexivity|].
    apply lookup_insert_ne, Hk.
Qed.

Lemma fields_of_lookup (line k : string) :
  fields_of line !! k = last_value k line.
Proof.
  unfold fields_of, last_value. rewrite store_tokens_lookup.
  destruct (last_token k (finditer line)); [reflexivity|apply lookup_empty].
Qed.

Lemma lower_truthy (v : string) : Py.truthy (Py.lower v) = Py.truthy v.
Proof. destruct v; reflexivity. Qed.

Lemma pool_entry_pool_of_fields (fields : gmap string string) :
  pool_entry (pool_of_fields fields) =
  pool_rule (fields !! "pool") (fields !! "upstream_addr").
Proof.
  unfold pool_of_fields, pool_rule, infer_pool, pool_entry.
  destruct (fields !! "pool") as [p|].
  - destruct (Py.truthy p) eqn:Hp.
    + simpl. now rewrite Hp.
    + destruct (fields !! "upstream_addr") as [u|]; [|reflexivity].
      destruct (Py.contains "app-blue" u); [reflexivity|].
      destruct (Py.contains "app-green" u); reflexivity.
  - destruct (fields !! "upstream_addr") as [u|]; [|reflexivity].
    destruct (Py.contains "app-blue" u); [reflexivity|].
    destruct (Py.contains "app-green" u); reflexivity.
Qed.

(** [parse_line] always returns, and this is the record it returns. *)
Lemma parse_line_returns (cfg : Config) (line : string) :
  parse_line cfg line = Returned {|
    status := status_of cfg (fields_of line !! "status");
    pool := pool_rule (fields_of line !! "pool")
                      (fields_of line !! "upstream_addr");
    release := Py.or_else (fields_of line !! "release") "unknown";
    upstream_status := Py.or_else (fields_of line !! "upstream_status") "-";
    upstream_addr := Py.or_else (fields_of line !! "upstream_addr") "-";
    request_time := Py.or_else (fields_of line !! "request_time") "-";
    upstream_response_time :=
      Py.or_else (fields_of line !! "upstream_response_time") "-";
    raw := line
  |}.
Proof.
  unfold parse_line. rewrite pool_entry_pool_of_fields.
  unfold status_of.
  destruct (fields_of line !! "status") as [v|]; simpl; [|reflexivity].
  destruct (Py.int (int_max_str_digits cfg) v); reflexivity.
Qed.

Lemma infer_pool_not_empty (u : option string) :
  infer_pool u <> Some EmptyString.
Proof.
  unfold infer_pool. destruct u as [u|]; [|discriminate].
  destruct (Py.contains "app-blue" u); [discriminate|].
  destruct (Py.contains "app-green" u); discriminate.
Qed.

(** * Lemmas on one iteration *)

Lemma detect_flip_window cfg w data s :
  window (detect_flip cfg w data s).1 = window s.
Proof.
  unfold detect_flip. destruct (pool data) as [p|]; [|reflexivity].
  destruct (flip (Some p) (last_seen_pool s)); [|reflexivity].
  destruct (MAINTENANCE_MODE cfg); [reflexivity|].
  destruct (cooldown_over cfg (clock_flip w) (last_alert_time s) "failover");
    reflexivity.
Qed.

Lemma track_errors_window cfg w data s :
  window (track_errors cfg w data s).1 = append (sample data) (window s).
Proof.
  unfold track_errors.
  repeat match goal with
         | |- context [if ?b then _ else _] => destruct b
         end; reflexivity.
Qed.

Lemma process_window cfg w data s :
  window (process cfg w data s).1 = append (sample data) (window s).
Proof.
  unfold process.
  pose proof (detect_flip_window cfg w data s) as Hd.
  destruct (detect_flip cfg w data s) as [s1 c1]. simpl in Hd.
  pose proof (track_errors_window cfg w data s1) as Ht.
  destruct (track_errors cfg w data s1) as [s2 c2]. simpl in Ht |- *.
  now rewrite Ht, Hd.
Qed.

(** * The claims on the parser *)

(** C7.  [parse_line] returns a record for every line.  When the value of
    the status field (quotes stripped, last token winning) is one [int]
    refuses, the record has no status, and processing it appends the sample
    0 to the window, whatever else the iteration does. *)
Theorem parse_total_bad_status_is_no_error (cfg : Config) (line : string) :
  exists data,
    parse_line cfg line = Returned data /\
    forall v e,
      last_value "status" line = Some v ->
      Py.int (int_max_str_digits cfg) v = Raised e ->
      status data = None /\
      sample data = 0 /\
      forall w s, window (process cfg w data s).1 = append 0 (window s).
Proof.
  eexists. split; [apply parse_line_returns|].
  intros v e Hv He. cbn [status].
  assert (Hs : status_of cfg (fields_of line !! "status") = None).
  { rewrite fields_of_lookup, Hv. simpl. now rewrite He. }
  split; [exact Hs|].
  assert (Hsample : forall d, status d = None -> sample d = 0).
  { intros d Hd. unfold sample. now rewrite Hd. }
  split; [now apply Hsample|].
  intros w s. rewrite process_window. now rewrite Hsample.
Qed.

Lemma parse_total_bad_status_witness :
  exists data,
    parse_line cfg_default "GET /x status=5o3 pool=blue" = Returned data /\
    status data = None /\ sample data = 0.
Proof.
  destruct (parse_total_bad_status_is_no_error cfg_default
              "GET /x status=5o3 pool=blue") as [data [Hp H]].
  exists data. split; [exact Hp|].
  destruct (H "5o3" ValueError) as [H1 [H2 _]];
    [vm_compute; reflexivity | vm_compute; reflexivity |].
  split; assumption.
Defined.

(** C8 as worded fails: on [line_empty_pool] the explicit pool field is
    present with the value the empty string, and the parser returns the pool
    inferred from the upstream address instead of that value lower-cased. *)
Lemma pool_rule_as_worded_fails :
  last_value "pool" line_empty_pool = Some EmptyString /\
  exists data,
    parse_line cfg_default line_empty_pool = Returned data /\
    pool data = Some "blue" /\
    pool data <>
      pool_rule_as_worded (last_value "pool" line_empty_pool)
                          (last_value "upstream_addr" line_empty_pool).
Proof.
  split; [vm_compute; reflexivity|].
  eexists. split; [vm_compute; reflexivity|].
  split; [reflexivity|]. vm_compute. discriminate.
Qed.

(** C8, amended.  For every line the parsed pool is the explicit pool
    field's value lower-cased when the field is present with a value that is
    not empty; otherwise blue if the upstream address contains [app-blue],
    else green if it contains [app-green]; otherwise it is absent. *)
Theorem parsed_pool_rule (cfg : Config) (line : string) :
  exists data,
    parse_line cfg line = Returned data /\
    pool data = pool_rule (last_value "pool" line)
                          (last_value "upstream_addr" line).
Proof.
  eexists. split; [apply parse_line_returns|].
  cbn [pool]. now rewrite !fields_of_lookup.
Qed.

(** C9.  When the pool token that counts has an empty value once the
    quotes around it are stripped, the parsed pool is the one inferred from
    the upstream address, as if there were no pool token; it is never the
    empty string. *)
Theorem empty_pool_token_falls_back (cfg : Config) (line : string)
    (m : string * string) :
  last_token "pool" (finditer line) = Some m ->
  Py.strip Py.is_dquote m.2 = EmptyString ->
  exists data,
    parse_line cfg line = Returned data /\
    pool data = infer_pool (last_value "upstream_addr" line) /\
    pool data <> Some EmptyString.
Proof.
  intros Hm Hv.
  eexists. split; [apply parse_line_returns|].
  cbn [pool]. rewrite !fields_of_lookup.
  assert (Hp : last_value "pool" line = Some EmptyString).
  { unfold last_value. rewrite Hm. simpl. now rewrite Hv. }
  rewrite Hp. cbn [pool_rule Py.truthy].
  split; [reflexivity|apply infer_pool_not_empty].
Qed.

Lemma empty_pool_token_witness :
  exists data,
    parse_line cfg_default line_empty_pool = Returned data /\
    pool data = infer_pool (last_value "upstream_addr" line_empty_pool) /\
    pool data <> Some EmptyString.
Proof.
  apply (empty_pool_token_falls_back cfg_default line_empty_pool
           ("pool", String.append dquote dquote));
    vm_compute; reflexivity.
Defined.

(** C10.  Every field the parser reads has the value of the last token
    with that key: the dict holds, for each key, the last occurrence, and
    the seven recognised fields of the record are computed from it. *)
Theorem last_occurrence_wins (cfg : Config) (line : string) :
  (forall k, fields_of line !! k = last_value k line) /\
  exists data,
    parse_line cfg line = Returned data /\
    status data = status_of cfg (last_value "status" line) /\
    pool data = pool_rule (last_value "pool" line)
                          (last_value "upstream_addr" line) /\
    release data = Py.or_else (last_value "release" line) "unknown" /\
    upstream_status data = Py.or_else (last_value "upstream_status" line) "-" /\
    upstream_addr data = Py.or_else (last_value "upstream_addr" line) "-" /\
    request_time data = Py.or_else (last_value "request_time" line) "-" /\
    upstream_response_time data =
      Py.or_else (last_value "upstream_response_time" line) "-".
Proof.
  split; [intros k; apply fields_of_lookup|].
  eexists. split; [apply parse_line_returns|].
  cbn [status pool release upstream_status upstream_addr request_time
       upstream_response_time].
  rewrite !fields_of_lookup. repeat split.
Qed.

(** A line with every key twice: the second values are the ones kept. *)
Example last_occurrence_wins_example :
  parse_line cfg_default
    "status=200 pool=blue release=v1 status=503 pool=GREEN release=v2"
  = Returned {|
      status := Some 503; pool := Some "green"; release := "v2";
      upstream_status := "-"; upstream_addr := "-"; request_time := "-";
      upstream_response_time := "-";
      raw := "status=200 pool=blue release=v1 status=503 pool=GREEN release=v2"
    |}.
Proof. vm_compute. reflexivity. Qed.

(** * The error window *)

Lemma append_maxlen x d : maxlen (append x d) = maxlen d.
Proof. reflexivity. Qed.

Lemma append_items x d :
  items (append x d) =
  if maxlen d <? len d + 1 then tail (items d ++ [x]) else items d ++ [x].
Proof.
  unfold append, len; simpl. rewrite length_app; simpl.
  replace (Z.of_nat (length (items d) + 1)) with (Z.of_nat (length (items d)) + 1)
    by lia.
  reflexivity.
Qed.

Lemma len_append x d :
  len (append x d) = if maxlen d <? len d + 1 then len d else len d + 1.
Proof.
  unfold len at 1. rewrite append_items.
  destruct (maxlen d <? len d + 1).
  - destruct (items d) as [|y l] eqn:E; unfold len; rewrite E; simpl; [reflexivity|].
    rewrite length_app; simpl. lia.
  - unfold len. rewrite length_app; simpl. lia.
Qed.

Lemma len_append_bounded x d :
  0 <= maxlen d -> len d <= maxlen d -> len (append x d) <= maxlen d.
Proof.
  intros H0 H. rewrite len_append.
  destruct (Z.ltb_spec (maxlen d) (len d + 1)); lia.
Qed.

Lemma step_returns cfg s line w :
  exists data,
    parse_line cfg line = Returned data /\
    step cfg s line w = Returned (process cfg w data s).
Proof.
  unfold step. rewrite parse_line_returns. eexists. split; reflexivity.
Qed.

Lemma reachable_window cfg s :
  reachable cfg s ->
  maxlen (window s) = WINDOW_SIZE cfg /\
  0 <= WINDOW_SIZE cfg /\
  len (window s) <= WINDOW_SIZE cfg.
Proof.
  induction 1 as [s Hinit | s line w r Hs IH Hstep].
  - unfold init, deque_new in Hinit.
    destruct (Z.ltb_spec (WINDOW_SIZE cfg) 0); simpl in Hinit; [discriminate|].
    injection Hinit as <-. simpl. unfold len; simpl. lia.
  - destruct IH as (Hm & H0 & Hl).
    destruct (step_returns cfg s line w) as (data & _ & Hr).
    rewrite Hr in Hstep. injection Hstep as <-.
    rewrite process_window, append_maxlen.
    split; [exact Hm|]. split; [exact H0|].
    rewrite <- Hm. apply len_append_bounded; lia.
Qed.

(** C6.  Between any two lines the window holds at most [WINDOW_SIZE]
    samples.  Appending to a window that is full leaves its length at the
    capacity, and what it holds afterwards is what it held before without
    its oldest sample, followed by the new one. *)
Theorem window_bounded_fifo (cfg : Config) :
  (forall s, reachable cfg s ->
     maxlen (window s) = WINDOW_SIZE cfg /\
     len (window s) <= WINDOW_SIZE cfg) /\
  (forall d x, len d = maxlen d ->
     len (append x d) = maxlen d /\
     items (append x d) = tail (items d ++ [x])) /\
  (forall d x oldest rest,
     items d = oldest :: rest -> len d = maxlen d ->
     items (append x d) = rest ++ [x]).
Proof.
  split; [|split].
  - intros s Hs. destruct (reachable_window cfg s Hs) as (Hm & _ & Hl).
    split; [exact Hm|exact Hl].
  - intros d x Hfull. rewrite len_append, append_items.
    destruct (Z.ltb_spec (maxlen d) (len d + 1)); [|lia].
    split; [exact Hfull|reflexivity].
  - intros d x oldest rest Hd Hfull. rewrite append_items.
    destruct (Z.ltb_spec (maxlen d) (len d + 1)); [|lia].
    now rewrite Hd.
Qed.

Lemma window_bounded_fifo_witness :
  items (append 7 {| items := [1; 0; 0]; maxlen := 3 |}) = [0; 0; 7] /\
  len (append 7 {| items := [1; 0; 0]; maxlen := 3 |}) = 3.
Proof.
  destruct (window_bounded_fifo cfg_default) as (_ & Hfull & Hfifo).
  split.
  - apply (Hfifo {| items := [1; 0; 0]; maxlen := 3 |} 7 1 [0; 0]); reflexivity.
  - apply (Hfull {| items := [1; 0; 0]; maxlen := 3 |} 7). reflexivity.
Defined.

(** * Lemmas on the two decision procedures *)

Lemma SFleb_not_SFltb a b : SFleb a b = true -> SFltb b a = false.
Proof.
  unfold SFleb, SFltb.
  destruct a as [sa|sa| |sa ma ea], b as [sb|sb| |sb mb eb]; simpl;
    try destruct sa; try destruct sb; simpl; try discriminate; try reflexivity.
  all: rewrite (Z.compare_antisym ea eb).
  all: change (PosDef.Pos.compare_cont Eq mb ma) with (Pos.compare mb ma).
  all: change (PosDef.Pos.compare_cont Eq ma mb) with (Pos.compare ma mb).
  all: rewrite (Pos.compare_antisym ma mb).
  all: destruct (ea ?= eb); simpl; try discriminate; try reflexivity.
  all: destruct (Pos.compare ma mb); simpl; try discriminate; reflexivity.
Qed.

(** On floats, [x <= y] excludes [y < x] (a NaN satisfies neither). *)
Lemma leb_not_ltb (x y : float) :
  (x <=? y)%float = true -> (y <? x)%float = false.
Proof. rewrite leb_spec, ltb_spec. apply SFleb_not_SFltb. Qed.

Lemma send_slack_true cfg post :
  send_slack cfg post = true <->
  exists url c,
    SLACK_WEBHOOK_URL cfg = Some url /\ url <> EmptyString /\
    post = Response c /\ c < 400.
Proof.
  unfold send_slack. split.
  - destruct (SLACK_WEBHOOK_URL cfg) as [url|]; [|discriminate].
    destruct url as [|a url]; [discriminate|]. simpl.
    destruct post as [c|]; [|discriminate].
    destruct (Z.leb_spec 400 c); [discriminate|]. intros _.
    exists (String a url), c. repeat split; [discriminate|assumption].
  - intros (url & c & -> & Hurl & -> & Hc).
    destruct url; [contradiction|]. simpl.
    destruct (Z.leb_spec 400 c); [lia|reflexivity].
Qed.

Lemma cooldown_over_ext cfg now (t t' : gmap string float) k :
  t !! k = t' !! k -> cooldown_over cfg now t k = cooldown_over cfg now t' k.
Proof. unfold cooldown_over. now intros ->. Qed.

Lemma process_eq cfg w data s :
  process cfg w data s =
  ((track_errors cfg w data (detect_flip cfg w data s).1).1,
   (detect_flip cfg w data s).2 ++
   (track_errors cfg w data (detect_flip cfg w data s).1).2).
Proof.
  unfold process. destruct (detect_flip cfg w data s) as [s1 c1]. simpl.
  destruct (track_errors cfg w data s1); reflexivity.
Qed.

(** What [detect_flip] does, case by case. *)
Lemma detect_flip_cases cfg w data s :
  let r := detect_flip cfg w data s in
  window r.1 = window s /\
  alerted_error r.1 = alerted_error s /\
  last_seen_pool r.1 =
    (if flip (pool data) (last_seen_pool s)
     then default (last_seen_pool s) (pool data) else last_seen_pool s) /\
  ((last_alert_time r.1 = last_alert_time s /\
    (r.2 = [] \/
     exists a, r.2 = [(a, false)] /\ is_failover a = true /\
               send_slack cfg (post_flip w) = false)) \/
   (last_alert_time r.1 = <[ "failover" := clock_flip w ]> (last_alert_time s) /\
    send_slack cfg (post_flip w) = true /\
    exists a, r.2 = [(a, true)] /\ is_failover a = true)).
Proof.
  unfold detect_flip. destruct (pool data) as [p|].
  - destruct (flip (Some p) (last_seen_pool s)); simpl.
    + destruct (MAINTENANCE_MODE cfg); simpl; [auto 10|].
      destruct (cooldown_over cfg (clock_flip w) (last_alert_time s) "failover");
        simpl; [|auto 10].
      destruct (send_slack cfg (post_flip w)); simpl.
      * repeat split. right. repeat split. eauto.
      * repeat split. left. split; [reflexivity|]. right. eauto.
    + auto 10.
  - simpl. auto 10.
Qed.

(** What [track_errors] does, case by case. *)
Lemma track_errors_cases cfg w data s :
  let r := track_errors cfg w data s in
  last_seen_pool r.1 = last_seen_pool s /\
  ((last_alert_time r.1 = last_alert_time s /\
    alerted_error r.1 = alerted_error s /\
    (r.2 = [] \/
     exists a, r.2 = [(a, false)] /\ is_failover a = false /\
               send_slack cfg (post_rate w) = false)) \/
   (last_alert_time r.1 = <[ "error_rate" := clock_rate w ]> (last_alert_time s) /\
    send_slack cfg (post_rate w) = true /\
    exists a, r.2 = [(a, true)] /\ is_failover a = false)).
Proof.
  unfold track_errors.
  destruct (1 <=? len (append (sample data) (window s))); [|simpl; auto 10].
  destruct (ERROR_RATE_THRESHOLD cfg <? error_rate (append (sample data) (window s)))%float.
  - destruct (MAINTENANCE_MODE cfg); [simpl; auto 10|].
    destruct (cooldown_over cfg (clock_rate w) (last_alert_time s) "error_rate");
      [|simpl; auto 10].
    destruct (send_slack cfg (post_rate w)); simpl.
    + split; [reflexivity|]. right. repeat split. eauto.
    + split; [reflexivity|]. left. repeat split. right. eauto.
  - destruct (alerted_error s &&
              cooldown_over cfg (clock_rate w) (last_alert_time s) "error_rate");
      [|simpl; auto 10].
    destruct (send_slack cfg (post_rate w)); simpl.
    + split; [reflexivity|]. right. repeat split. eauto.
    + split; [reflexivity|]. left. repeat split. right. eauto.
Qed.

Lemma process_calls_shape cfg w data s :
  exists dc tc,
    (process cfg w data s).2 = dc ++ tc /\
    (dc = [] \/ exists a b, dc = [(a, b)] /\ is_failover a = true) /\
    (tc = [] \/ exists a b, tc = [(a, b)] /\ is_failover a = false).
Proof.
  rewrite process_eq. simpl.
  destruct (detect_flip_cases cfg w data s) as (_ & _ & _ & Hd).
  destruct (track_errors_cases cfg w data (detect_flip cfg w data s).1)
    as (_ & Ht).
  eexists _, _. split; [reflexivity|]. split.
  - destruct Hd as [(_ & [H|(a & H & Ha & _)]) | (_ & _ & a & H & Ha)];
      rewrite H; eauto.
  - destruct Ht as [(_ & _ & [H|(a & H & Ha & _)]) | (_ & _ & a & H & Ha)];
      rewrite H; eauto.
Qed.

(** * The claims on the alert state machine *)

(** C1 as worded fails: the first line of a run, with a pool other than
    the configured one and a 5xx status, makes the loop call [send_slack]
    twice, once with a failover notice and once with an error-rate alert. *)
Lemma one_record_two_notifications :
  exists s r,
    init cfg_default = Returned s /\
    step cfg_default s "pool=green status=500" world_ok = Returned r /\
    length r.2 = 2%nat /\
    ~ (length r.2 <= 1)%nat.
Proof.
  eexists _, _. split; [vm_compute; reflexivity|].
  split; [vm_compute; reflexivity|].
  split; [reflexivity|]. simpl. lia.
Qed.

(** C1, amended.  For every line the loop processes, at most one failover
    notice and at most one error-rate message (an alert or a recovery
    notice) are handed to [send_slack]: at most two messages for a record,
    never two of the same kind. *)
Theorem at_most_one_call_per_kind (cfg : Config) (s : State) (line : string)
    (w : World) :
  exists r,
    step cfg s line w = Returned r /\
    (length (failover_calls r.2) <= 1)%nat /\
    (length (rate_calls r.2) <= 1)%nat /\
    (length r.2 <= 2)%nat.
Proof.
  destruct (step_returns cfg s line w) as (data & _ & Hr).
  eexists. split; [exact Hr|].
  destruct (process_calls_shape cfg w data s) as (dc & tc & -> & Hd & Ht).
  unfold failover_calls, rate_calls. rewrite !filter_app, !length_app.
  destruct Hd as [-> | (a & b & -> & Ha)];
    destruct Ht as [-> | (a' & b' & -> & Ha')];
    rewrite ?filter_nil, ?filter_cons; simpl;
    repeat match goal with
           | |- context [decide ?P] => destruct (decide P)
           end; simpl; try lia; congruence.
Qed.

(** C4.  A call of [send_slack] returns true exactly when a webhook URL
    is set and the request came back with a status below 400.  In every
    iteration the time stamp of a kind either stays what it was, or a
    message of that kind was delivered in this iteration and the stamp is
    the clock read for it. *)
Theorem timestamp_moves_only_on_delivery (cfg : Config) (s : State)
    (line : string) (w : World) :
  (forall post,
     send_slack cfg post = true <->
     exists url c,
       SLACK_WEBHOOK_URL cfg = Some url /\ url <> EmptyString /\
       post = Response c /\ c < 400) /\
  exists r,
    step cfg s line w = Returned r /\
    (last_alert_time r.1 !! "failover" = last_alert_time s !! "failover" \/
     (send_slack cfg (post_flip w) = true /\
      (exists a, In (a, true) r.2 /\ is_failover a = true) /\
      last_alert_time r.1 !! "failover" = Some (clock_flip w))) /\
    (last_alert_time r.1 !! "error_rate" = last_alert_time s !! "error_rate" \/
     (send_slack cfg (post_rate w) = true /\
      (exists a, In (a, true) r.2 /\ is_failover a = false) /\
      last_alert_time r.1 !! "error_rate" = Some (clock_rate w))).
Proof.
  split; [intros post; apply send_slack_true|].
  destruct (step_returns cfg s line w) as (data & _ & Hr).
  eexists. split; [exact Hr|].
  rewrite process_eq. simpl.
  destruct (detect_flip_cases cfg w data s) as (_ & _ & _ & Hd).
  destruct (track_errors_cases cfg w data (detect_flip cfg w data s).1)
    as (_ & Ht).
  set (d := detect_flip cfg w data s) in *.
  set (t := track_errors cfg w data d.1) in *.
  split.
  - destruct Hd as [(Hd & _) | (Hd & Hsent & a & Hc & Ha)].
    + left. destruct Ht as [(Ht & _) | (Ht & _)]; rewrite Ht, ?Hd;
        [reflexivity|]. now rewrite lookup_insert_ne.
    + right. split; [exact Hsent|]. split.
      * exists a. split; [|exact Ha]. apply in_or_app. left.
        rewrite Hc. now left.
      * destruct Ht as [(Ht & _) | (Ht & _)]; rewrite Ht, Hd.
        -- apply lookup_insert_eq.
        -- rewrite lookup_insert_ne by discriminate. apply lookup_insert_eq.
  - destruct Ht as [(Ht & _) | (Ht & Hsent & a & Hc & Ha)].
    + left. rewrite Ht.
      destruct Hd as [(Hd & _) | (Hd & _)]; rewrite Hd; [reflexivity|].
      now rewrite lookup_insert_ne.
    + right. split; [exact Hsent|]. split.
      * exists a. split; [|exact Ha]. apply in_or_app. right.
        rewrite Hc. now left.
      * rewrite Ht. apply lookup_insert_eq.
Qed.

(** ** Pool tracking *)

Lemma pool_rule_truthy e u p : pool_rule e u = Some p -> Py.truthy p = true.
Proof.
  unfold pool_rule, infer_pool.
  assert (Hinf : forall o : option string,
            match o with
            | Some x =>
                if Py.contains "app-blue" x then Some "blue"
                else if Py.contains "app-green" x then Some "green" else None
            | None => None
            end = Some p -> Py.truthy p = true).
  { intros [x|]; [|discriminate].
    destruct (Py.contains "app-blue" x); [now intros [= <-]|].
    destruct (Py.contains "app-green" x); [now intros [= <-]|discriminate]. }
  destruct e as [v|]; [|apply Hinf].
  destruct (Py.truthy v) eqn:Hv; [|apply Hinf].
  intros [= <-]. now rewrite lower_truthy.
Qed.

Lemma parsed_pool_truthy cfg line data p :
  parse_line cfg line = Returned data -> pool data = Some p ->
  Py.truthy p = true.
Proof.
  rewrite parse_line_returns. intros [= <-]. cbn [pool]. apply pool_rule_truthy.
Qed.

Lemma track_errors_failover_frame cfg w data s :
  let r := track_errors cfg w data s in
  last_seen_pool r.1 = last_seen_pool s /\
  last_alert_time r.1 !! "failover" = last_alert_time s !! "failover" /\
  failover_calls r.2 = [].
Proof.
  destruct (track_errors_cases cfg w data s) as (Hp & H). simpl.
  split; [exact Hp|]. unfold failover_calls.
  destruct H as [(Ht & _ & [Hc|(a & Hc & Ha & _)]) | (Ht & _ & a & Hc & Ha)];
    rewrite Ht, Hc; rewrite ?filter_nil, ?filter_cons; simpl;
    repeat match goal with
           | |- context [decide ?P] => destruct (decide P)
           end; try congruence; split; try reflexivity;
    now rewrite lookup_insert_ne.
Qed.

Lemma failover_calls_app (a b : list call) :
  failover_calls (a ++ b) = failover_calls a ++ failover_calls b.
Proof. apply filter_app. Qed.

Lemma failover_calls_cons_true (a : alert) (b : bool) (cs : list call) :
  is_failover a = true ->
  failover_calls ((a, b) :: cs) = (a, b) :: failover_calls cs.
Proof.
  intros Ha. unfold failover_calls. rewrite filter_cons. simpl.
  destruct (decide (is_failover a = true)); [reflexivity|contradiction].
Qed.

Lemma detect_flip_sends cfg w data s p :
  pool data = Some p ->
  flip (Some p) (last_seen_pool s) = true ->
  MAINTENANCE_MODE cfg = false ->
  cooldown_over cfg (clock_flip w) (last_alert_time s) "failover" = true ->
  send_slack cfg (post_flip w) = true ->
  detect_flip cfg w data s =
  ({| window := window s;
      last_seen_pool := p;
      last_alert_time := <[ "failover" := clock_flip w ]> (last_alert_time s);
      alerted_error := alerted_error s |},
   [(FailoverDetected (last_seen_pool s) p (release data) (upstream_addr data)
       (upstream_status data), true)]).
Proof.
  intros Hp Hf Hm Hc Hs. unfold detect_flip.
  now rewrite Hp, Hf, Hm, Hc, Hs.
Qed.

Lemma detect_flip_in_cooldown cfg w data s p :
  pool data = Some p ->
  flip (Some p) (last_seen_pool s) = true ->
  MAINTENANCE_MODE cfg = false ->
  cooldown_over cfg (clock_flip w) (last_alert_time s) "failover" = false ->
  detect_flip cfg w data s =
  ({| window := window s;
      last_seen_pool := p;
      last_alert_time := last_alert_time s;
      alerted_error := alerted_error s |}, []).
Proof.
  intros Hp Hf Hm Hc. unfold detect_flip. now rewrite Hp, Hf, Hm, Hc.
Qed.

(** C2 as worded fails: started with an empty [ACTIVE_POOL], the loop
    reads a record whose pool, green, is present and differs from the
    tracked one; no flip is detected and the tracked pool stays empty. *)
Lemma empty_tracked_pool_never_flips :
  exists s data r,
    init cfg_no_pool = Returned s /\
    parse_line cfg_no_pool "pool=green status=200" = Returned data /\
    pool data = Some "green" /\
    pool data <> Some (last_seen_pool s) /\
    step cfg_no_pool s "pool=green status=200" world_ok = Returned r /\
    flip (pool data) (last_seen_pool s) = false /\
    last_seen_pool r.1 = EmptyString /\
    last_seen_pool r.1 <> "green".
Proof.
  eexists _, _, _. split; [vm_compute; reflexivity|].
  split; [vm_compute; reflexivity|].
  split; [reflexivity|]. split; [discriminate|].
  split; [vm_compute; reflexivity|].
  split; [reflexivity|]. split; [reflexivity|discriminate].
Qed.

(** C2, amended.  For every record whose parsed pool is present and
    differs from a tracked pool that is not empty, a flip is detected and
    the tracked pool becomes the record's pool, whatever maintenance mode
    and the cooldown decide about the notice.  In particular, with
    maintenance mode off, when the notice of a first flip is delivered and a
    second flip is read less than the cooldown after it, the two iterations
    hand exactly one failover notice to [send_slack], and the tracked pool
    follows both flips. *)
Theorem flip_advances_tracked_pool (cfg : Config) :
  (forall s line w data p,
     parse_line cfg line = Returned data ->
     pool data = Some p ->
     last_seen_pool s <> EmptyString ->
     p <> last_seen_pool s ->
     flip (pool data) (last_seen_pool s) = true /\
     exists r, step cfg s line w = Returned r /\ last_seen_pool r.1 = p) /\
  (forall s line1 w1 line2 w2 d1 d2 p1 p2,
     parse_line cfg line1 = Returned d1 -> pool d1 = Some p1 ->
     parse_line cfg line2 = Returned d2 -> pool d2 = Some p2 ->
     last_seen_pool s <> EmptyString ->
     p1 <> last_seen_pool s -> p2 <> p1 ->
     MAINTENANCE_MODE cfg = false ->
     cooldown_over cfg (clock_flip w1) (last_alert_time s) "failover" = true ->
     send_slack cfg (post_flip w1) = true ->
     float_ge_int (clock_flip w2 - clock_flip w1)%float (ALERT_COOLDOWN_SEC cfg)
       = false ->
     exists r1 r2,
       step cfg s line1 w1 = Returned r1 /\
       step cfg r1.1 line2 w2 = Returned r2 /\
       length (failover_calls (r1.2 ++ r2.2)) = 1%nat /\
       last_seen_pool r1.1 = p1 /\
       last_seen_pool r2.1 = p2).
Proof.
  assert (Hflip : forall line data p seen,
            parse_line cfg line = Returned data -> pool data = Some p ->
            seen <> EmptyString -> p <> seen -> flip (Some p) seen = true).
  { intros line data p seen Hd Hp Hseen Hne. unfold flip.
    rewrite (parsed_pool_truthy cfg line data p Hd Hp).
    destruct seen; [contradiction|]. simpl.
    destruct (String.eqb_spec p (String a seen)); [contradiction|reflexivity]. }
  split.
  - intros s line w data p Hd Hp Hseen Hne.
    pose proof (Hflip line data p _ Hd Hp Hseen Hne) as Hf.
    split; [now rewrite Hp|].
    destruct (step_returns cfg s line w) as (data' & Hd' & Hr).
    rewrite Hd in Hd'. injection Hd' as <-.
    eexists. split; [exact Hr|]. rewrite process_eq. simpl.
    destruct (track_errors_failover_frame cfg w data (detect_flip cfg w data s).1)
      as (-> & _).
    destruct (detect_flip_cases cfg w data s) as (_ & _ & -> & _).
    now rewrite Hp, Hf.
  - intros s line1 w1 line2 w2 d1 d2 p1 p2 Hd1 Hp1 Hd2 Hp2 Hseen Hne1 Hne2
      Hm Hc Hsent Hlate.
    pose proof (Hflip line1 d1 p1 _ Hd1 Hp1 Hseen Hne1) as Hf1.
    assert (Hp1ne : p1 <> EmptyString).
    { pose proof (parsed_pool_truthy cfg line1 d1 p1 Hd1 Hp1) as Ht.
      intros ->. discriminate. }
    pose proof (Hflip line2 d2 p2 _ Hd2 Hp2 Hp1ne Hne2) as Hf2.
    destruct (step_returns cfg s line1 w1) as (d1' & Hd1' & Hr1).
    rewrite Hd1 in Hd1'. injection Hd1' as <-.
    eexists. rewrite Hr1.
    destruct (step_returns cfg (process cfg w1 d1 s).1 line2 w2)
      as (d2' & Hd2' & Hr2).
    rewrite Hd2 in Hd2'. injection Hd2' as <-.
    eexists. rewrite Hr2. split; [reflexivity|]. split; [reflexivity|].
    rewrite !process_eq. cbn [fst snd].
    rewrite (detect_flip_sends cfg w1 d1 s p1 Hp1 Hf1 Hm Hc Hsent). cbn [fst snd].
    set (s1 := {| window := window s; last_seen_pool := p1;
                  last_alert_time := <[ "failover" := clock_flip w1 ]> (last_alert_time s);
                  alerted_error := alerted_error s |}).
    destruct (track_errors_failover_frame cfg w1 d1 s1) as (Hseen1 & Htime1 & Hcalls1).
    set (t1 := track_errors cfg w1 d1 s1) in *.
    assert (Hcool : cooldown_over cfg (clock_flip w2) (last_alert_time t1.1) "failover"
                    = false).
    { unfold cooldown_over. rewrite Htime1. unfold s1. simpl.
      rewrite lookup_insert_eq. simpl. exact Hlate. }
    assert (Hf2' : flip (Some p2) (last_seen_pool t1.1) = true).
    { now rewrite Hseen1. }
    rewrite (detect_flip_in_cooldown cfg w2 d2 t1.1 p2 Hp2 Hf2' Hm Hcool).
    cbn [fst snd].
    match goal with
    | |- context [track_errors cfg w2 d2 ?s2] =>
        destruct (track_errors_failover_frame cfg w2 d2 s2) as (Hseen2 & _ & Hcalls2)
    end.
    split; [|split].
    +       rewrite !failover_calls_app, Hcalls1, Hcalls2.
      rewrite failover_calls_cons_true by reflexivity. reflexivity.
    + exact Hseen1.
    + exact Hseen2.
Qed.

Lemma flip_advances_tracked_pool_witness :
  exists s r1 r2,
    init cfg_default = Returned s /\
    step cfg_default s "pool=green status=200" world_ok = Returned r1 /\
    step cfg_default r1.1 "pool=blue status=200" world_later = Returned r2 /\
    length (failover_calls (r1.2 ++ r2.2)) = 1%nat /\
    last_seen_pool r1.1 = "green" /\
    last_seen_pool r2.1 = "blue".
Proof.
  destruct (init cfg_default) as [s|e] eqn:Hs; [|vm_compute in Hs; discriminate].
  exists s.
  assert (Hs' : last_seen_pool s = "blue" /\
                last_alert_time s !! "failover" = Some 0%float).
  { vm_compute in Hs. injection Hs as <-. split; reflexivity. }
  destruct Hs' as (Hseen & Htime).
  destruct (parse_line cfg_default "pool=green status=200") as [d1|] eqn:Hd1;
    [|vm_compute in Hd1; discriminate].
  destruct (parse_line cfg_default "pool=blue status=200") as [d2|] eqn:Hd2;
    [|vm_compute in Hd2; discriminate].
  destruct (proj2 (flip_advances_tracked_pool cfg_default)
              s "pool=green status=200" world_ok "pool=blue status=200"
              world_later d1 d2 "green" "blue")
    as (r1 & r2 & H1 & H2 & H3 & H4 & H5).
  - exact Hd1.
  - vm_compute in Hd1. injection Hd1 as <-. reflexivity.
  - exact Hd2.
  - vm_compute in Hd2. injection Hd2 as <-. reflexivity.
  - rewrite Hseen. discriminate.
  - rewrite Hseen. discriminate.
  - discriminate.
  - reflexivity.
  - unfold cooldown_over. rewrite Htime. vm_compute. reflexivity.
  - vm_compute. reflexivity.
  - vm_compute. reflexivity.
  - exists r1, r2. repeat split; assumption.
Defined.

(** ** Recovery *)

Lemma rate_calls_app (a b : list call) :
  rate_calls (a ++ b) = rate_calls a ++ rate_calls b.
Proof. apply filter_app. Qed.

Lemma rate_calls_cons_false (a : alert) (b : bool) (cs : list call) :
  is_failover a = false ->
  rate_calls ((a, b) :: cs) = (a, b) :: rate_calls cs.
Proof.
  intros Ha. unfold rate_calls. rewrite filter_cons. simpl.
  destruct (decide (is_failover a = false)); [reflexivity|contradiction].
Qed.

Lemma rate_calls_cons_true (a : alert) (b : bool) (cs : list call) :
  is_failover a = true -> rate_calls ((a, b) :: cs) = rate_calls cs.
Proof.
  intros Ha. unfold rate_calls. rewrite filter_cons. simpl.
  destruct (decide (is_failover a = false)); [congruence|reflexivity].
Qed.

Lemma detect_flip_rate_frame cfg w data s :
  let r := detect_flip cfg w data s in
  window r.1 = window s /\
  alerted_error r.1 = alerted_error s /\
  last_alert_time r.1 !! "error_rate" = last_alert_time s !! "error_rate" /\
  rate_calls r.2 = [].
Proof.
  destruct (detect_flip_cases cfg w data s) as (Hw & Ha & _ & H). simpl.
  split; [exact Hw|]. split; [exact Ha|].
  destruct H as [(Ht & [Hc|(a & Hc & Hf & _)]) | (Ht & _ & a & Hc & Hf)];
    rewrite Ht, Hc; rewrite ?rate_calls_cons_true by exact Hf;
    split; try reflexivity; now rewrite lookup_insert_ne.
Qed.

(** [track_errors] on a state owed a recovery notice. *)
Lemma track_errors_recovery cfg w data s :
  1 <= len (append (sample data) (window s)) ->
  (ERROR_RATE_THRESHOLD cfg <? error_rate (append (sample data) (window s)))%float
    = false ->
  alerted_error s = true ->
  let win := append (sample data) (window s) in
  let sent := send_slack cfg (post_rate w) in
  track_errors cfg w data s =
  if cooldown_over cfg (clock_rate w) (last_alert_time s) "error_rate" then
    ({| window := win;
        last_seen_pool := last_seen_pool s;
        last_alert_time :=
          if sent then <[ "error_rate" := clock_rate w ]> (last_alert_time s)
          else last_alert_time s;
        alerted_error := negb sent |},
     [(ErrorRateRecovered (error_rate win) (len win) (pool data), sent)])
  else
    ({| window := win;
        last_seen_pool := last_seen_pool s;
        last_alert_time := last_alert_time s;
        alerted_error := true |}, []).
Proof.
  intros Hlen Hrate Ha. simpl. unfold track_errors.
  destruct (Z.leb_spec 1 (len (append (sample data) (window s)))); [|lia].
  rewrite Hrate, Ha. simpl.
  destruct (cooldown_over cfg (clock_rate w) (last_alert_time s) "error_rate");
    [|reflexivity].
  destruct (send_slack cfg (post_rate w)); reflexivity.
Qed.

(** C3.  When the rate computed for a record is at or below the threshold
    and [alerted_error] is set: if the cooldown of the error-rate kind is
    over, a recovery notice is handed to [send_slack], and on delivery the
    error-rate time stamp becomes the clock read and [alerted_error] is
    cleared, while on failure both stay as they were; if the cooldown is not
    over, nothing is sent and both stay as they were. *)
Theorem recovery_after_cooldown (cfg : Config) (s : State) (line : string)
    (w : World) (data : LogRecord) :
  let win := append (sample data) (window s) in
  let sent := send_slack cfg (post_rate w) in
  parse_line cfg line = Returned data ->
  1 <= len win ->
  (error_rate win <=? ERROR_RATE_THRESHOLD cfg)%float = true ->
  alerted_error s = true ->
  exists r,
    step cfg s line w = Returned r /\
    (cooldown_over cfg (clock_rate w) (last_alert_time s) "error_rate" = true ->
     rate_calls r.2 =
       [(ErrorRateRecovered (error_rate win) (len win) (pool data), sent)] /\
     (sent = true ->
      last_alert_time r.1 !! "error_rate" = Some (clock_rate w) /\
      alerted_error r.1 = false) /\
     (sent = false ->
      last_alert_time r.1 !! "error_rate" = last_alert_time s !! "error_rate" /\
      alerted_error r.1 = true)) /\
    (cooldown_over cfg (clock_rate w) (last_alert_time s) "error_rate" = false ->
     rate_calls r.2 = [] /\
     last_alert_time r.1 !! "error_rate" = last_alert_time s !! "error_rate" /\
     alerted_error r.1 = true).
Proof.
  intros win sent Hd Hlen Hrate Ha.
  destruct (step_returns cfg s line w) as (data' & Hd' & Hr).
  rewrite Hd in Hd'. injection Hd' as <-.
  eexists. split; [exact Hr|].
  rewrite process_eq. cbn [fst snd].
  destruct (detect_flip_rate_frame cfg w data s) as (Hw & Hal & Ht & Hc).
  set (d := detect_flip cfg w data s) in *.
  rewrite rate_calls_app, Hc. cbn [app].
  rewrite (track_errors_recovery cfg w data d.1);
    rewrite ?Hw, ?Hal; try assumption;
    [|now apply leb_not_ltb].
  rewrite (cooldown_over_ext cfg (clock_rate w) _ _ _ Ht).
  fold win. fold sent.
  split; intros Hcool; rewrite Hcool; cbn [fst snd alerted_error last_alert_time].
  - split; [now rewrite rate_calls_cons_false|].
    split; intros Hs; rewrite Hs; simpl; split; try reflexivity;
      [apply lookup_insert_eq|exact Ht].
  - split; [reflexivity|]. split; [exact Ht|reflexivity].
Qed.

Lemma recovery_after_cooldown_witness :
  exists s calls r,
    main cfg_small [("status=500", world_ok); ("status=200", world_ok)]
      = Returned (s, calls) /\
    alerted_error s = true /\
    step cfg_small s "status=200" world_recovered = Returned r /\
    rate_calls r.2 = [(ErrorRateRecovered 0 2 None, true)] /\
    last_alert_time r.1 !! "error_rate" = Some 2000%float /\
    alerted_error r.1 = false.
Proof.
  destruct (main cfg_small [("status=500", world_ok); ("status=200", world_ok)])
    as [[s calls]|] eqn:Hs; [|vm_compute in Hs; discriminate].
  vm_compute in Hs. injection Hs as <- <-.
  destruct (parse_line cfg_small "status=200") as [data|] eqn:Hd;
    [|vm_compute in Hd; discriminate].
  eexists _, _.
  edestruct (recovery_after_cooldown cfg_small) as (r & Hr & Hover & _);
    [exact Hd| | | |].
  4: { exists r. split; [reflexivity|]. split; [reflexivity|].
       split; [exact Hr|].
       destruct Hover as (Hcalls & Hsent & _); [vm_compute; reflexivity|].
       destruct Hsent as (Htime & Hal); [vm_compute; reflexivity|].
       vm_compute in Hd. injection Hd as <-.
       split; [|split; [exact Htime|exact Hal]].
       rewrite Hcalls. vm_compute. reflexivity. }
  all: vm_compute in Hd; injection Hd as <-; vm_compute; try reflexivity.
  discriminate.
Defined.

(** ** Maintenance mode *)

Lemma detect_flip_maintenance cfg w data s :
  MAINTENANCE_MODE cfg = true ->
  detect_flip cfg w data s =
  ({| window := window s;
      last_seen_pool :=
        match pool data with
        | Some p => if flip (pool data) (last_seen_pool s) then p
                    else last_seen_pool s
        | None => last_seen_pool s
        end;
      last_alert_time := last_alert_time s;
      alerted_error := alerted_error s |}, []).
Proof.
  intros Hm. unfold detect_flip. rewrite Hm.
  destruct (pool data) as [p|]; [|now destruct s].
  destruct (flip (Some p) (last_seen_pool s)); [reflexivity|now destruct s].
Qed.

Lemma track_errors_maintenance cfg w data s :
  MAINTENANCE_MODE cfg = true ->
  alerted_error s = false ->
  track_errors cfg w data s =
  ({| window := append (sample data) (window s);
      last_seen_pool := last_seen_pool s;
      last_alert_time := last_alert_time s;
      alerted_error := false |}, []).
Proof.
  intros Hm Ha. unfold track_errors. rewrite Hm, Ha. simpl.
  destruct (1 <=? len (append (sample data) (window s))); [|reflexivity].
  destruct (ERROR_RATE_THRESHOLD cfg <? error_rate (append (sample data) (window s)))%float;
    reflexivity.
Qed.

(** In maintenance mode the loop never sets [alerted_error]. *)
Lemma reachable_maintenance cfg s :
  MAINTENANCE_MODE cfg = true -> reachable cfg s -> alerted_error s = false.
Proof.
  intros Hm. induction 1 as [s Hinit | s line w r Hs IH Hstep].
  - unfold init in Hinit. destruct (deque_new (WINDOW_SIZE cfg)); simpl in Hinit;
      [|discriminate]. now injection Hinit as <-.
  - destruct (step_returns cfg s line w) as (data & _ & Hr).
    rewrite Hr in Hstep. injection Hstep as <-.
    rewrite process_eq. cbn [fst].
    rewrite (detect_flip_maintenance cfg w data s Hm). cbn [fst].
    now rewrite track_errors_maintenance.
Qed.

(** C5.  With maintenance mode on, an iteration of the loop hands nothing
    to [send_slack], and leaves the time stamps and [alerted_error] as they
    were; the window receives the record's sample, and the tracked pool
    becomes the record's pool when a flip is detected and stays otherwise. *)
Theorem maintenance_suppresses_all (cfg : Config) (s : State) (line : string)
    (w : World) :
  MAINTENANCE_MODE cfg = true ->
  reachable cfg s ->
  exists data r,
    parse_line cfg line = Returned data /\
    step cfg s line w = Returned r /\
    r.2 = [] /\
    last_alert_time r.1 = last_alert_time s /\
    alerted_error r.1 = alerted_error s /\
    window r.1 = append (sample data) (window s) /\
    (forall p, pool data = Some p ->
               flip (pool data) (last_seen_pool s) = true ->
               last_seen_pool r.1 = p) /\
    (flip (pool data) (last_seen_pool s) = false ->
     last_seen_pool r.1 = last_seen_pool s).
Proof.
  intros Hm Hs.
  pose proof (reachable_maintenance cfg s Hm Hs) as Ha.
  destruct (step_returns cfg s line w) as (data & Hd & Hr).
  exists data. eexists. split; [exact Hd|]. split; [exact Hr|].
  rewrite process_eq. cbn [fst snd].
  rewrite (detect_flip_maintenance cfg w data s Hm). cbn [fst snd].
  rewrite track_errors_maintenance by assumption. cbn [fst snd].
  cbn [window last_seen_pool last_alert_time alerted_error].
  repeat split; try reflexivity.
  - now rewrite Ha.
  - intros p Hp Hf. now rewrite Hp in *; rewrite Hf.
  - intros Hf. rewrite Hf. now destruct (pool data).
Qed.

Lemma maintenance_suppresses_all_witness :
  exists s r,
    init cfg_maintenance = Returned s /\
    step cfg_maintenance s "pool=green status=500" world_ok = Returned r /\
    r.2 = [] /\
    last_alert_time r.1 = last_alert_time s /\
    items (window r.1) = [1] /\
    last_seen_pool r.1 = "green".
Proof.
  destruct (init cfg_maintenance) as [s|] eqn:Hs; [|vm_compute in Hs; discriminate].
  exists s.
  destruct (maintenance_suppresses_all cfg_maintenance s "pool=green status=500"
              world_ok) as (data & r & Hd & Hr & Hc & Ht & _ & Hw & Hflip & _).
  - reflexivity.
  - apply reachable_init. exact Hs.
  - exists r. split; [reflexivity|]. split; [exact Hr|].
    split; [exact Hc|]. split; [exact Ht|].
    vm_compute in Hs. injection Hs as <-.
    vm_compute in Hd. injection Hd as <-.
    split; [rewrite Hw; reflexivity|].
    apply Hflip; reflexivity.
Defined.

(** * Further properties of the tokenizer and the parser *)

Lemma span_all p s : all_chars p (Py.span p s).1 = true.
Proof.
  induction s as [|c s IH]; simpl; [reflexivity|].
  destruct (p c) eqn:Hc; [|reflexivity].
  destruct (Py.span p s) as [a b]. simpl in *. now rewrite Hc.
Qed.

Lemma match_at_ok prev s m : match_at prev s = Some m -> token_ok m.
Proof.
  unfold match_at. destruct prev; [discriminate|].
  pose proof (span_all Py.is_word s) as Hk.
  destruct (Py.span Py.is_word s) as [k r]. simpl in Hk.
  destruct (Py.truthy k) eqn:Htk; simpl; [|discriminate].
  destruct r as [|c r']; [discriminate|].
  destruct (Ascii.eqb_spec c "="%char) as [->|Hne].
  - pose proof (span_all (fun c => negb (Py.is_space c)) r') as Hv.
    destruct (Py.span (fun c => negb (Py.is_space c)) r') as [v rest].
    simpl in Hv. destruct (Py.truthy v) eqn:Htv; [|discriminate].
    intros [= <-]. repeat split; assumption.
  - destruct c as [[] [] [] [] [] [] [] []]; try discriminate.
    now contradiction Hne.
Qed.

Lemma finditer_from_ok skip prev s : Forall token_ok (finditer_from skip prev s).
Proof.
  revert skip prev. induction s as [|c s IH]; intros skip prev; simpl.
  - constructor.
  - destruct skip as [|n]; [|apply IH].
    destruct (match_at prev (String c s)) as [[k v]|] eqn:Hm; [|apply IH].
    constructor; [exact (match_at_ok _ _ _ Hm)|apply IH].
Qed.

(** X1.  Every token the tokenizer finds has a key that is a non-empty run
    of word characters and a value that is a non-empty run of characters
    none of which is white space. *)
Theorem tokens_well_formed (line : string) :
  Forall token_ok (finditer line).
Proof. apply finditer_from_ok. Qed.

Lemma span_rest_no_equals p s :
  all_chars not_equals s = true ->
  match (Py.span p s).2 with
  | String c _ => not_equals c = true
  | EmptyString => True
  end.
Proof.
  induction s as [|c s IH]; simpl; [trivial|].
  intros H. apply andb_prop in H as [Hc Hs].
  destruct (p c).
  - specialize (IH Hs). now destruct (Py.span p s).
  - simpl. exact Hc.
Qed.

Lemma match_at_no_equals prev s :
  all_chars not_equals s = true -> match_at prev s = None.
Proof.
  intros H. unfold match_at. destruct prev; [reflexivity|].
  pose proof (span_rest_no_equals Py.is_word s H) as Hr.
  destruct (Py.span Py.is_word s) as [k r]. simpl in Hr.
  destruct (negb (Py.truthy k)); [reflexivity|].
  destruct r as [|c r']; [reflexivity|].
  destruct c as [[] [] [] [] [] [] [] []]; try reflexivity.
  discriminate.
Qed.

Lemma finditer_from_no_equals prev s :
  all_chars not_equals s = true -> finditer_from 0 prev s = [].
Proof.
  revert prev. induction s as [|c s IH]; intros prev H; simpl; [reflexivity|].
  rewrite (match_at_no_equals prev (String c s) H).
  simpl in H. apply andb_prop in H as [_ Hs]. now apply IH.
Qed.

(** X2.  A line without an equals sign carries no token: the parser
    returns the record with no status, no pool and every other field at its
    default. *)
Theorem line_without_equals_is_blank (cfg : Config) (line : string) :
  all_chars not_equals line = true ->
  finditer line = [] /\
  parse_line cfg line = Returned (blank_record line).
Proof.
  intros H.
  assert (Hf : finditer line = []) by now apply finditer_from_no_equals.
  split; [exact Hf|].
  rewrite parse_line_returns. unfold blank_record.
  assert (Hl : forall k, fields_of line !! k = None).
  { intros k. unfold fields_of. rewrite Hf. apply lookup_empty. }
  now rewrite !Hl.
Qed.

Lemma line_without_equals_witness :
  parse_line cfg_default "GET /healthz HTTP/1.1 200 17"
  = Returned (blank_record "GET /healthz HTTP/1.1 200 17").
Proof.
  apply (line_without_equals_is_blank cfg_default "GET /healthz HTTP/1.1 200 17").
  reflexivity.
Defined.

Lemma or_else_not_empty x y :
  y <> EmptyString -> Py.or_else x y <> EmptyString.
Proof.
  intros Hy. unfold Py.or_else. destruct x as [v|]; [|exact Hy].
  destruct v; [exact Hy|discriminate].
Qed.

(** X3.  The five text fields of a record are never empty: a token that is
    missing, or whose value is empty once its quotes are stripped, gives the
    default. *)
Theorem text_fields_never_empty (cfg : Config) (line : string) :
  exists data,
    parse_line cfg line = Returned data /\
    release data <> EmptyString /\
    upstream_status data <> EmptyString /\
    upstream_addr data <> EmptyString /\
    request_time data <> EmptyString /\
    upstream_response_time data <> EmptyString.
Proof.
  eexists. split; [apply parse_line_returns|].
  cbn [release upstream_status upstream_addr request_time upstream_response_time].
  repeat split; apply or_else_not_empty; discriminate.
Qed.

Lemma lower_char_idem c : Py.lower_char (Py.lower_char c) = Py.lower_char c.
Proof. destruct c as [[] [] [] [] [] [] [] []]; reflexivity. Qed.

Lemma lower_idem s : Py.lower (Py.lower s) = Py.lower s.
Proof.
  induction s as [|c s IH]; simpl; [reflexivity|].
  now rewrite lower_char_idem, IH.
Qed.

Lemma pool_rule_lower e u p : pool_rule e u = Some p -> Py.lower p = p.
Proof.
  unfold pool_rule.
  assert (Hinf : infer_pool u = Some p -> Py.lower p = p).
  { unfold infer_pool. destruct u as [x|]; [|discriminate].
    destruct (Py.contains "app-blue" x); [now intros [= <-]|].
    destruct (Py.contains "app-green" x); [now intros [= <-]|discriminate]. }
  destruct e as [v|]; [|exact Hinf].
  destruct (Py.truthy v); [|exact Hinf].
  intros [= <-]. apply lower_idem.
Qed.

(** X4.  A pool the parser reports is never empty and holds no upper-case
    letter: lower-casing it changes nothing. *)
Theorem parsed_pool_is_lower_case (cfg : Config) (line : string) :
  exists data,
    parse_line cfg line = Returned data /\
    forall p, pool data = Some p -> p <> EmptyString /\ Py.lower p = p.
Proof.
  eexists. split; [apply parse_line_returns|].
  cbn [pool]. intros p Hp. split.
  - pose proof (pool_rule_truthy _ _ _ Hp) as Ht. intros ->. discriminate.
  - exact (pool_rule_lower _ _ _ Hp).
Qed.

Lemma last_char_some d s : exists x, last_char (String d s) = Some x.
Proof.
  revert d. induction s as [|e s IH]; intros d; [now exists d|].
  change (last_char (String d (String e s))) with (last_char (String e s)).
  apply IH.
Qed.

Lemma last_char_cons c s :
  last_char (String c s) =
  match last_char s with Some d => Some d | None => Some c end.
Proof.
  destruct s as [|d s]; [reflexivity|].
  change (last_char (String c (String d s))) with (last_char (String d s)).
  destruct (last_char_some d s) as [x ->]. reflexivity.
Qed.

Lemma last_char_none s : last_char s = None -> s = EmptyString.
Proof.
  destruct s as [|c s]; [reflexivity|]. rewrite last_char_cons.
  destruct (last_char s); discriminate.
Qed.

Lemma drop_while_first p s c :
  first_char (Py.drop_while p s) = Some c -> p c = false.
Proof.
  induction s as [|d s IH]; simpl; [discriminate|].
  destruct (p d) eqn:Hd; [exact IH|]. simpl. now intros [= <-].
Qed.

Lemma drop_while_last p s :
  Py.drop_while p s <> EmptyString ->
  last_char (Py.drop_while p s) = last_char s.
Proof.
  induction s as [|d s IH]; [reflexivity|].
  cbn [Py.drop_while]. destruct (p d); [|reflexivity].
  intros Hne. rewrite (IH Hne), last_char_cons.
  destruct (last_char s) eqn:Hl; [reflexivity|].
  apply last_char_none in Hl. subst s. now contradiction Hne.
Qed.

Lemma rev_onto_first s acc :
  first_char (Py.rev_onto s acc) =
  match last_char s with Some c => Some c | None => first_char acc end.
Proof.
  revert acc. induction s as [|c s IH]; intros acc; [reflexivity|].
  cbn [Py.rev_onto]. rewrite IH, last_char_cons.
  destruct (last_char s); reflexivity.
Qed.

Lemma rev_onto_last s acc :
  last_char (Py.rev_onto s acc) =
  match last_char acc with Some c => Some c | None => first_char s end.
Proof.
  revert acc. induction s as [|c s IH]; intros acc.
  - simpl. now destruct (last_char acc).
  - cbn [Py.rev_onto]. rewrite IH, last_char_cons.
    destruct (last_char acc); reflexivity.
Qed.

(** [strip] leaves no character of the stripped set at either end. *)
Lemma strip_ends p s : ends_free_of p (Py.strip p s).
Proof.
  unfold Py.strip, Py.rev.
  set (t := Py.drop_while p s).
  set (u := Py.drop_while p (Py.rev_onto t EmptyString)).
  split; intros c.
  - rewrite rev_onto_first. simpl.
    destruct (last_char u) as [d|] eqn:Hu; [|discriminate].
    intros [= ->].
    assert (Hne : u <> EmptyString) by (intros E; rewrite E in Hu; discriminate).
    unfold u in Hu. rewrite (drop_while_last _ _ Hne), rev_onto_last in Hu.
    simpl in Hu. exact (drop_while_first p s c Hu).
  - rewrite rev_onto_last. simpl. apply drop_while_first.
Qed.

(** X5.  No value kept for a key starts or ends with a double quote. *)
Theorem stored_values_have_no_outer_quotes (line k v : string) :
  fields_of line !! k = Some v -> ends_free_of Py.is_dquote v.
Proof.
  rewrite fields_of_lookup. unfold last_value.
  destruct (last_token k (finditer line)) as [m|]; [|discriminate].
  simpl. intros [= <-]. apply strip_ends.
Qed.

Lemma stored_values_witness :
  fields_of line_quoted_release !! "release" = Some "v1.4" /\
  ends_free_of Py.is_dquote "v1.4".
Proof.
  assert (H : fields_of line_quoted_release !! "release" = Some "v1.4")
    by (vm_compute; reflexivity).
  split; [exact H|].
  exact (stored_values_have_no_outer_quotes line_quoted_release "release" "v1.4" H).
Defined.

(** * Further properties of the window *)

Lemma parsed_sample cfg line data :
  parse_line cfg line = Returned data -> sample data = line_sample cfg line.
Proof.
  rewrite parse_line_returns. intros [= <-].
  unfold sample, line_sample. cbn [status]. now rewrite fields_of_lookup.
Qed.


Lemma loop_cons cfg s line w rest :
  exists data,
    parse_line cfg line = Returned data /\
    loop cfg s ((line, w) :: rest) =
    let r := process cfg w data s in
    let! r' := loop cfg r.1 rest in Returned (r'.1, r.2 ++ r'.2).
Proof.
  destruct (step_returns cfg s line w) as (data & Hd & Hr).
  exists data. split; [exact Hd|]. simpl. now rewrite Hr.
Qed.

Lemma loop_reachable cfg s input r :
  reachable cfg s -> loop cfg s input = Returned r -> reachable cfg r.1.
Proof.
  revert s r. induction input as [|[line w] rest IH]; intros s r Hs; simpl.
  - now intros [= <-].
  - destruct (step cfg s line w) as [r1|] eqn:H1; simpl; [|discriminate].
    destruct (loop cfg r1.1 rest) as [r2|] eqn:H2; simpl; [|discriminate].
    intros [= <-]. simpl. apply (IH r1.1 r2); [|exact H2].
    exact (reachable_step cfg s line w r1 Hs H1).
Qed.

Lemma main_reachable cfg input r :
  main cfg input = Returned r -> reachable cfg r.1.
Proof.
  unfold main. destruct (init cfg) as [s|] eqn:Hs; simpl; [|discriminate].
  apply loop_reachable. now apply reachable_init.
Qed.

Lemma trailing_snoc {A : Type} (n : nat) (h : list A) (x : A) :
  trailing n (trailing n h ++ [x]) = trailing n (h ++ [x]).
Proof.
  unfold trailing.
  destruct n as [|n].
  { rewrite !Nat.sub_0_r, !drop_all. reflexivity. }
  rewrite !length_app, length_drop. simpl length.
  set (k := S n). assert (Hk : (1 <= k)%nat) by (unfold k; lia).
  clearbody k. clear n. rename k into n.
  destruct (Nat.le_gt_cases (length h) n) as [Hle|Hgt].
  - replace (length h - n)%nat with 0%nat by lia. simpl.
    now replace (length h - 0 + 1 - n)%nat with (length h + 1 - n)%nat by lia.
  - replace (length h - (length h - n) + 1 - n)%nat with 1%nat by lia.
    replace (length h + 1 - n)%nat with (S (length h - n)) by lia.
    rewrite (drop_app_le h [x] (S (length h - n))) by lia.
    rewrite (drop_app_le (drop (length h - n) h) [x] 1)
      by (rewrite length_drop; lia).
    rewrite drop_drop. f_equal. f_equal. lia.
Qed.

Lemma append_is_trailing x d :
  0 <= maxlen d -> len d <= maxlen d ->
  items (append x d) = trailing (Z.to_nat (maxlen d)) (items d ++ [x]).
Proof.
  intros H0 Hl. rewrite append_items. unfold trailing, len in *.
  rewrite length_app. simpl.
  destruct (Z.ltb_spec (maxlen d) (Z.of_nat (length (items d)) + 1)).
  - replace (length (items d) + 1 - Z.to_nat (maxlen d))%nat with 1%nat by lia.
    reflexivity.
  - replace (length (items d) + 1 - Z.to_nat (maxlen d))%nat with 0%nat by lia.
    reflexivity.
Qed.

Lemma loop_window cfg s input r (h : list Z) :
  maxlen (window s) = WINDOW_SIZE cfg -> 0 <= WINDOW_SIZE cfg ->
  len (window s) <= WINDOW_SIZE cfg ->
  items (window s) = trailing (Z.to_nat (WINDOW_SIZE cfg)) h ->
  loop cfg s input = Returned r ->
  items (window r.1) =
  trailing (Z.to_nat (WINDOW_SIZE cfg)) (h ++ map (fun lw => line_sample cfg lw.1) input).
Proof.
  revert s r h. induction input as [|[line w] rest IH]; intros s r h Hm H0 Hl Hh.
  - simpl. intros [= <-]. now rewrite app_nil_r.
  - destruct (loop_cons cfg s line w rest) as (data & Hd & ->). cbn zeta.
    destruct (loop cfg (process cfg w data s).1 rest) as [r'|] eqn:Hr';
      simpl; [|discriminate].
    intros [= <-]. simpl.
    replace (h ++ line_sample cfg line :: map (fun lw => line_sample cfg lw.1) rest)
      with ((h ++ [line_sample cfg line]) ++ map (fun lw => line_sample cfg lw.1) rest)
      by (now rewrite <- app_assoc).
    apply (IH (process cfg w data s).1 r' (h ++ [line_sample cfg line]));
      try assumption.
    + now rewrite process_window, append_maxlen.
    + rewrite process_window. rewrite <- Hm. apply len_append_bounded; lia.
    + rewrite process_window, append_is_trailing by lia.
      rewrite Hm, Hh, (parsed_sample cfg line data Hd). apply trailing_snoc.
Qed.

(** X7.  After any number of lines the window holds the samples of the
    last [WINDOW_SIZE] lines read, oldest first, or of all the lines when
    fewer were read. *)
Theorem window_is_trailing_samples (cfg : Config) (input : list (string * World))
    (r : State * list call) :
  main cfg input = Returned r ->
  items (window r.1) =
  trailing (Z.to_nat (WINDOW_SIZE cfg))
           (map (fun lw => line_sample cfg lw.1) input).
Proof.
  unfold main. destruct (init cfg) as [s|] eqn:Hs; simpl; [|discriminate].
  intros Hr.
  destruct (reachable_window cfg s (reachable_init cfg s Hs)) as (Hm & H0 & Hl).
  apply (loop_window cfg s input r []); try assumption.
  unfold init, deque_new in Hs.
  destruct (WINDOW_SIZE cfg <? 0); simpl in Hs; [discriminate|].
  now injection Hs as <-.
Qed.

Lemma window_is_trailing_samples_witness :
  exists r,
    main cfg_small [("status=500", world_ok); ("status=200", world_ok);
                    ("status=503", world_ok)] = Returned r /\
    items (window r.1) = [0; 1].
Proof.
  destruct (main cfg_small [("status=500", world_ok); ("status=200", world_ok);
                            ("status=503", world_ok)]) as [r|] eqn:Hr;
    [|vm_compute in Hr; discriminate].
  exists r. split; [reflexivity|].
  rewrite (window_is_trailing_samples cfg_small _ r Hr).
  vm_compute. reflexivity.
Defined.

(** An invariant of the states and a property of the calls that every
    iteration keeps hold for the whole loop. *)
Lemma loop_invariant cfg (I : State -> Prop) (Q : list call -> Prop) :
  Q [] ->
  (forall a b, Q a -> Q b -> Q (a ++ b)) ->
  (forall s w data,
     I s -> I (process cfg w data s).1 /\ Q (process cfg w data s).2) ->
  forall s input r,
    I s -> loop cfg s input = Returned r -> I r.1 /\ Q r.2.
Proof.
  intros Hnil Happ Hstep s input. revert s.
  induction input as [|[line w] rest IH]; intros s r Hs.
  - simpl. intros [= <-]. split; assumption.
  - destruct (loop_cons cfg s line w rest) as (data & _ & ->). cbn zeta.
    destruct (loop cfg (process cfg w data s).1 rest) as [r'|] eqn:Hr';
      simpl; [|discriminate].
    intros [= <-]. simpl.
    destruct (Hstep s w data Hs) as (Hi & Hq).
    destruct (IH _ r' Hi Hr') as (Hi' & Hq').
    split; [exact Hi'|]. now apply Happ.
Qed.

Lemma sample_binary data : binary (sample data).
Proof. unfold sample, binary. destruct (is_5xx (status data)); auto. Qed.

Lemma append_binary x d :
  binary x -> Forall binary (items d) -> Forall binary (items (append x d)).
Proof.
  intros Hx Hd. rewrite append_items.
  assert (H : Forall binary (items d ++ [x])).
  { apply Forall_app. split; [exact Hd|]. constructor; [exact Hx|constructor]. }
  destruct (maxlen d <? len d + 1); [|exact H].
  destruct (items d ++ [x]) as [|y l]; [constructor|].
  simpl. now inversion H.
Qed.

Lemma foldl_add_binary (l : list Z) (a : Z) :
  Forall binary l ->
  a <= foldl Z.add a l <= a + Z.of_nat (length l).
Proof.
  revert a. induction l as [|x l IH]; intros a Hl; simpl; [lia|].
  inversion Hl as [|? ? Hx Hl']; subst.
  specialize (IH (a + x) Hl'). destruct Hx; subst; lia.
Qed.

(** X8.  The window only ever holds the samples 0 and 1, so the number of
    errors it counts lies between 0 and the number of its samples. *)
Theorem window_counts_errors (cfg : Config) (input : list (string * World))
    (r : State * list call) :
  main cfg input = Returned r ->
  Forall binary (items (window r.1)) /\
  0 <= sum (window r.1) <= len (window r.1).
Proof.
  intros Hr.
  assert (Hb : Forall binary (items (window r.1))).
  { unfold main in Hr. destruct (init cfg) as [s|] eqn:Hs; simpl in Hr;
      [|discriminate].
    apply (loop_invariant cfg (fun s => Forall binary (items (window s)))
             (fun _ => True)) with (s := s) (input := input); auto.
    - intros s0 w data H0. split; [|trivial].
      rewrite process_window. apply append_binary; [apply sample_binary|exact H0].
    - unfold init in Hs. destruct (deque_new (WINDOW_SIZE cfg)) as [d|] eqn:Hd;
        simpl in Hs; [|discriminate].
      injection Hs as <-. simpl. unfold deque_new in Hd.
      destruct (WINDOW_SIZE cfg <? 0); [discriminate|].
      injection Hd as <-. constructor. }
  split; [exact Hb|].
  pose proof (foldl_add_binary _ 0 Hb) as H. unfold sum, len. lia.
Qed.

Lemma window_counts_errors_witness :
  exists r,
    main cfg_small [("status=500", world_ok); ("status=200", world_ok);
                    ("status=503", world_ok)] = Returned r /\
    0 <= sum (window r.1) <= len (window r.1).
Proof.
  destruct (main cfg_small [("status=500", world_ok); ("status=200", world_ok);
                            ("status=503", world_ok)]) as [r|] eqn:Hr;
    [|vm_compute in Hr; discriminate].
  exists r. split; [reflexivity|].
  exact (proj2 (window_counts_errors cfg_small _ r Hr)).
Defined.



Lemma track_errors_empty_window cfg w data s :
  maxlen (window s) = 0 -> items (window s) = [] ->
  track_errors cfg w data s =
  ({| window := {| items := []; maxlen := 0 |};
      last_seen_pool := last_seen_pool s;
      last_alert_time := last_alert_time s;
      alerted_error := alerted_error s |}, []).
Proof.
  intros Hm Hi. unfold track_errors, append, len. rewrite Hm, Hi. reflexivity.
Qed.

(** X10.  With [WINDOW_SIZE] zero the window stays empty, and the loop
    never hands an error-rate alert or a recovery notice to [send_slack]:
    [alerted_error] stays false and the error-rate time stamp stays 0. *)
Theorem zero_window_never_alerts (cfg : Config) (input : list (string * World))
    (r : State * list call) :
  WINDOW_SIZE cfg = 0 ->
  main cfg input = Returned r ->
  items (window r.1) = [] /\
  rate_calls r.2 = [] /\
  alerted_error r.1 = false /\
  last_alert_time r.1 !! "error_rate" = Some 0%float.
Proof.
  intros Hz Hr. unfold main in Hr.
  destruct (init cfg) as [s|] eqn:Hs; simpl in Hr; [|discriminate].
  destruct (loop_invariant cfg
              (fun s => maxlen (window s) = 0 /\ items (window s) = [] /\
                        alerted_error s = false /\
                        last_alert_time s !! "error_rate" = Some 0%float)
              (fun cs => rate_calls cs = [])) with (s := s) (input := input) (r := r)
    as ((_ & Hi & Ha & Ht) & Hq); auto.
  - intros a b Ha Hb. now rewrite rate_calls_app, Ha, Hb.
  - intros s0 w data (Hm0 & Hi0 & Ha0 & Ht0).
    rewrite process_eq. cbn [fst snd].
    destruct (detect_flip_rate_frame cfg w data s0) as (Hw & Hal & Htm & Hc).
    rewrite track_errors_empty_window by (rewrite Hw; assumption).
    cbn [fst snd window items maxlen alerted_error last_alert_time].
    rewrite Hal, Htm, rate_calls_app, Hc. auto.
  - unfold init, deque_new in Hs. rewrite Hz in Hs. simpl in Hs.
    injection Hs as <-. simpl. auto.
Qed.

Lemma zero_window_never_alerts_witness :
  exists r,
    main cfg_zero_window [("status=500", world_ok); ("status=503", world_ok)]
      = Returned r /\
    rate_calls r.2 = [] /\ alerted_error r.1 = false.
Proof.
  destruct (main cfg_zero_window [("status=500", world_ok); ("status=503", world_ok)])
    as [r|] eqn:Hr; [|vm_compute in Hr; discriminate].
  exists r. split; [reflexivity|].
  destruct (zero_window_never_alerts cfg_zero_window _ r eq_refl Hr)
    as (_ & Hc & Ha & _).
  split; assumption.
Defined.

(** * Further properties of the alert state machine *)

(** [track_errors] on a rate above the threshold, maintenance mode off. *)
Lemma track_errors_elevated cfg w data s :
  1 <= len (append (sample data) (window s)) ->
  (ERROR_RATE_THRESHOLD cfg <? error_rate (append (sample data) (window s)))%float
    = true ->
  MAINTENANCE_MODE cfg = false ->
  let win := append (sample data) (window s) in
  let sent := send_slack cfg (post_rate w) in
  track_errors cfg w data s =
  if cooldown_over cfg (clock_rate w) (last_alert_time s) "error_rate" then
    ({| window := win;
        last_seen_pool := last_seen_pool s;
        last_alert_time :=
          if sent then <[ "error_rate" := clock_rate w ]> (last_alert_time s)
          else last_alert_time s;
        alerted_error := if sent then true else alerted_error s |},
     [(ElevatedErrorRate (error_rate win) (len win) (ERROR_RATE_THRESHOLD cfg)
         (pool data) (upstream_addr data) (upstream_status data), sent)])
  else
    ({| window := win;
        last_seen_pool := last_seen_pool s;
        last_alert_time := last_alert_time s;
        alerted_error := alerted_error s |}, []).
Proof.
  intros Hlen Hrate Hm. simpl. unfold track_errors.
  destruct (Z.leb_spec 1 (len (append (sample data) (window s)))); [|lia].
  rewrite Hrate, Hm.
  destruct (cooldown_over cfg (clock_rate w) (last_alert_time s) "error_rate");
    [|reflexivity].
  destruct (send_slack cfg (post_rate w)); reflexivity.
Qed.

(** X11.  When the rate computed for a record exceeds the threshold and
    maintenance mode is off: if the error-rate cooldown is over, exactly one
    elevated-rate alert is handed to [send_slack], carrying the rate, the
    window length, the threshold and the record's pool and upstream fields;
    on delivery the error-rate time stamp becomes the clock read and
    [alerted_error] is set, on failure both stay as they were.  If the
    cooldown is not over, nothing of that kind is sent and both stay. *)
Theorem elevated_rate_alert (cfg : Config) (s : State) (line : string)
    (w : World) (data : LogRecord) :
  let win := append (sample data) (window s) in
  let sent := send_slack cfg (post_rate w) in
  parse_line cfg line = Returned data ->
  1 <= len win ->
  (ERROR_RATE_THRESHOLD cfg <? error_rate win)%float = true ->
  MAINTENANCE_MODE cfg = false ->
  exists r,
    step cfg s line w = Returned r /\
    (cooldown_over cfg (clock_rate w) (last_alert_time s) "error_rate" = true ->
     rate_calls r.2 =
       [(ElevatedErrorRate (error_rate win) (len win) (ERROR_RATE_THRESHOLD cfg)
           (pool data) (upstream_addr data) (upstream_status data), sent)] /\
     (sent = true ->
      last_alert_time r.1 !! "error_rate" = Some (clock_rate w) /\
      alerted_error r.1 = true) /\
     (sent = false ->
      last_alert_time r.1 !! "error_rate" = last_alert_time s !! "error_rate" /\
      alerted_error r.1 = alerted_error s)) /\
    (cooldown_over cfg (clock_rate w) (last_alert_time s) "error_rate" = false ->
     rate_calls r.2 = [] /\
     last_alert_time r.1 !! "error_rate" = last_alert_time s !! "error_rate" /\
     alerted_error r.1 = alerted_error s).
Proof.
  intros win sent Hd Hlen Hrate Hm.
  destruct (step_returns cfg s line w) as (data' & Hd' & Hr).
  rewrite Hd in Hd'. injection Hd' as <-.
  eexists. split; [exact Hr|].
  rewrite process_eq. cbn [fst snd].
  destruct (detect_flip_rate_frame cfg w data s) as (Hw & Hal & Ht & Hc).
  set (d := detect_flip cfg w data s) in *.
  rewrite rate_calls_app, Hc. cbn [app].
  rewrite (track_errors_elevated cfg w data d.1);
    rewrite ?Hw, ?Hal; try assumption.
  rewrite (cooldown_over_ext cfg (clock_rate w) _ _ _ Ht).
  fold win. fold sent.
  split; intros Hcool; rewrite Hcool; cbn [fst snd alerted_error last_alert_time].
  - split; [now rewrite rate_calls_cons_false|].
    split; intros Hs; rewrite Hs; simpl; split; try reflexivity;
      [apply lookup_insert_eq|exact Ht].
  - split; [reflexivity|]. split; [exact Ht|reflexivity].
Qed.

Lemma elevated_rate_alert_witness :
  exists s r,
    init cfg_default = Returned s /\
    step cfg_default s "status=502 upstream_addr=app-blue:3000" world_ok
      = Returned r /\
    rate_calls r.2 =
      [(ElevatedErrorRate 100 1 2 (Some "blue") "app-blue:3000" "-", true)] /\
    last_alert_time r.1 !! "error_rate" = Some 1000%float /\
    alerted_error r.1 = true.
Proof.
  destruct (init cfg_default) as [s|] eqn:Hs; [|vm_compute in Hs; discriminate].
  vm_compute in Hs. injection Hs as <-.
  destruct (parse_line cfg_default "status=502 upstream_addr=app-blue:3000")
    as [data|] eqn:Hd; [|vm_compute in Hd; discriminate].
  eexists.
  edestruct (elevated_rate_alert cfg_default) as (r & Hr & Hover & _);
    [exact Hd| | | |].
  4: { exists r. split; [reflexivity|]. split; [exact Hr|].
       destruct Hover as (Hcalls & Hsent & _); [vm_compute; reflexivity|].
       destruct Hsent as (Htime & Hal); [vm_compute; reflexivity|].
       vm_compute in Hd. injection Hd as <-.
       split; [|split; [exact Htime|exact Hal]].
       rewrite Hcalls. vm_compute. reflexivity. }
  all: vm_compute in Hd; injection Hd as <-; vm_compute; try reflexivity.
  discriminate.
Defined.

Lemma failover_calls_cons_false (a : alert) (b : bool) (cs : list call) :
  is_failover a = false -> failover_calls ((a, b) :: cs) = failover_calls cs.
Proof.
  intros Ha. unfold failover_calls. rewrite filter_cons. simpl.
  destruct (decide (is_failover a = true)); [congruence|reflexivity].
Qed.

(** X12.  When a flip is detected and maintenance mode is off: the tracked
    pool becomes the record's pool; if the failover cooldown is over,
    exactly one failover notice is handed to [send_slack], naming the pool
    tracked before, the new pool and the record's release and upstream
    fields, and the failover time stamp becomes the clock read on delivery
    and stays on failure; if the cooldown is not over, no failover notice is
    sent and the stamp stays. *)
Theorem failover_notice (cfg : Config) (s : State) (line : string)
    (w : World) (data : LogRecord) (p : string) :
  let sent := send_slack cfg (post_flip w) in
  parse_line cfg line = Returned data ->
  pool data = Some p ->
  flip (Some p) (last_seen_pool s) = true ->
  MAINTENANCE_MODE cfg = false ->
  exists r,
    step cfg s line w = Returned r /\
    last_seen_pool r.1 = p /\
    (cooldown_over cfg (clock_flip w) (last_alert_time s) "failover" = true ->
     failover_calls r.2 =
       [(FailoverDetected (last_seen_pool s) p (release data)
           (upstream_addr data) (upstream_status data), sent)] /\
     (sent = true ->
      last_alert_time r.1 !! "failover" = Some (clock_flip w)) /\
     (sent = false ->
      last_alert_time r.1 !! "failover" = last_alert_time s !! "failover")) /\
    (cooldown_over cfg (clock_flip w) (last_alert_time s) "failover" = false ->
     failover_calls r.2 = [] /\
     last_alert_time r.1 !! "failover" = last_alert_time s !! "failover").
Proof.
  intros sent Hd Hp Hf Hm.
  destruct (step_returns cfg s line w) as (data' & Hd' & Hr).
  rewrite Hd in Hd'. injection Hd' as <-.
  eexists. split; [exact Hr|].
  rewrite process_eq. cbn [fst snd].
  destruct (track_errors_failover_frame cfg w data (detect_flip cfg w data s).1)
    as (Hseen & Htime & Hcalls).
  rewrite Hseen, Htime, failover_calls_app, Hcalls, app_nil_r.
  unfold detect_flip. rewrite Hp, Hf, Hm. fold sent.
  destruct (cooldown_over cfg (clock_flip w) (last_alert_time s) "failover").
  - cbn [fst snd last_seen_pool last_alert_time].
    split; [reflexivity|]. split; [|discriminate]. intros _.
    split; [now rewrite failover_calls_cons_true|].
    split; intros Hs; rewrite Hs; [apply lookup_insert_eq|reflexivity].
  - cbn [fst snd last_seen_pool last_alert_time].
    split; [reflexivity|]. split; [discriminate|]. intros _.
    split; reflexivity.
Qed.

Lemma failover_notice_witness :
  exists s r,
    init cfg_default = Returned s /\
    step cfg_default s "pool=green release=v2 status=200" world_ok = Returned r /\
    last_seen_pool r.1 = "green" /\
    failover_calls r.2 = [(FailoverDetected "blue" "green" "v2" "-" "-", true)] /\
    last_alert_time r.1 !! "failover" = Some 1000%float.
Proof.
  destruct (init cfg_default) as [s|] eqn:Hs; [|vm_compute in Hs; discriminate].
  vm_compute in Hs. injection Hs as <-.
  destruct (parse_line cfg_default "pool=green release=v2 status=200")
    as [data|] eqn:Hd; [|vm_compute in Hd; discriminate].
  eexists.
  edestruct (failover_notice cfg_default) with (p := "green")
    as (r & Hr & Hseen & Hover & _); [exact Hd| | | |].
  4: { exists r. split; [reflexivity|]. split; [exact Hr|].
       split; [exact Hseen|].
       destruct Hover as (Hcalls & Hsent & _); [vm_compute; reflexivity|].
       vm_compute in Hd. injection Hd as <-.
       split; [rewrite Hcalls; vm_compute; reflexivity|].
       apply Hsent. vm_compute. reflexivity. }
  all: vm_compute in Hd; injection Hd as <-; vm_compute; reflexivity.
Defined.

Lemma flip_same p : flip (Some p) p = false.
Proof.
  unfold flip. rewrite String.eqb_refl. simpl.
  now rewrite andb_false_r.
Qed.

(** X13.  A record without a pool, or whose pool is the tracked one, does
    nothing on the failover side: no failover notice is sent, and the
    tracked pool and the failover time stamp stay as they were. *)
Theorem no_flip_no_action (cfg : Config) (s : State) (line : string)
    (w : World) (data : LogRecord) :
  parse_line cfg line = Returned data ->
  pool data = None \/ pool data = Some (last_seen_pool s) ->
  exists r,
    step cfg s line w = Returned r /\
    failover_calls r.2 = [] /\
    last_seen_pool r.1 = last_seen_pool s /\
    last_alert_time r.1 !! "failover" = last_alert_time s !! "failover".
Proof.
  intros Hd Hp.
  destruct (step_returns cfg s line w) as (data' & Hd' & Hr).
  rewrite Hd in Hd'. injection Hd' as <-.
  eexists. split; [exact Hr|].
  rewrite process_eq. cbn [fst snd].
  destruct (track_errors_failover_frame cfg w data (detect_flip cfg w data s).1)
    as (Hseen & Htime & Hcalls).
  rewrite Hseen, Htime, failover_calls_app, Hcalls, app_nil_r.
  assert (Hdf : detect_flip cfg w data s = (s, [])).
  { unfold detect_flip. destruct Hp as [-> | ->]; [reflexivity|].
    now rewrite flip_same. }
  rewrite Hdf. repeat split.
Qed.

Lemma no_flip_no_action_witness :
  exists s r,
    init cfg_default = Returned s /\
    step cfg_default s "pool=BLUE status=200" world_ok = Returned r /\
    failover_calls r.2 = [] /\
    last_seen_pool r.1 = "blue".
Proof.
  destruct (init cfg_default) as [s|] eqn:Hs; [|vm_compute in Hs; discriminate].
  vm_compute in Hs. injection Hs as <-.
  destruct (parse_line cfg_default "pool=BLUE status=200")
    as [data|] eqn:Hd; [|vm_compute in Hd; discriminate].
  eexists.
  edestruct (no_flip_no_action cfg_default) as (r & Hr & Hc & Hseen & _);
    [exact Hd| |].
  2: { exists r. split; [reflexivity|]. split; [exact Hr|].
       split; [exact Hc|]. rewrite Hseen. reflexivity. }
  vm_compute in Hd. injection Hd as <-. right. reflexivity.
Defined.

Lemma detect_flip_calls_failover cfg w data s :
  failover_calls (detect_flip cfg w data s).2 = (detect_flip cfg w data s).2.
Proof.
  destruct (detect_flip_cases cfg w data s) as (_ & _ & _ & H).
  destruct H as [(_ & [Hc|(a & Hc & Hf & _)]) | (_ & _ & a & Hc & Hf)];
    rewrite Hc; [reflexivity| |]; now rewrite failover_calls_cons_true.
Qed.

Lemma track_errors_calls_rate cfg w data s :
  rate_calls (track_errors cfg w data s).2 = (track_errors cfg w data s).2.
Proof.
  destruct (track_errors_cases cfg w data s) as (_ & H).
  destruct H as [(_ & _ & [Hc|(a & Hc & Hf & _)]) | (_ & _ & a & Hc & Hf)];
    rewrite Hc; [reflexivity| |]; now rewrite rate_calls_cons_false.
Qed.

(** [track_errors] reads the state only through the window, the flag and
    the error-rate time stamp. *)
Lemma track_errors_ext cfg w data s s' :
  window s = window s' ->
  alerted_error s = alerted_error s' ->
  last_alert_time s !! "error_rate" = last_alert_time s' !! "error_rate" ->
  let t := track_errors cfg w data s in
  let t' := track_errors cfg w data s' in
  window t.1 = window t'.1 /\
  alerted_error t.1 = alerted_error t'.1 /\
  last_alert_time t.1 !! "error_rate" = last_alert_time t'.1 !! "error_rate" /\
  t.2 = t'.2.
Proof.
  intros Hw Ha Ht. simpl. unfold track_errors.
  rewrite Hw, Ha, (cooldown_over_ext cfg (clock_rate w) _ _ _ Ht).
  destruct (1 <=? len (append (sample data) (window s'))); [|simpl; auto].
  destruct (ERROR_RATE_THRESHOLD cfg <? error_rate (append (sample data) (window s')))%float.
  - destruct (MAINTENANCE_MODE cfg); [simpl; auto|].
    destruct (cooldown_over cfg (clock_rate w) (last_alert_time s') "error_rate");
      [|simpl; auto].
    destruct (send_slack cfg (post_rate w)); simpl; [|auto].
    now rewrite !lookup_insert_eq.
  - destruct (alerted_error s' &&
              cooldown_over cfg (clock_rate w) (last_alert_time s') "error_rate");
      [|simpl; auto].
    destruct (send_slack cfg (post_rate w)); simpl; [|auto].
    now rewrite !lookup_insert_eq.
Qed.

(** X14.  The two procedures of an iteration do not interfere.  The
    tracked pool, the failover time stamp and the failover notices of the
    iteration are those of the flip detection alone; the window, the flag,
    the error-rate time stamp and the error-rate messages are those the
    error-rate tracking produces when run on the state before the
    iteration. *)
Theorem procedures_do_not_interfere (cfg : Config) (w : World)
    (data : LogRecord) (s : State) :
  (last_seen_pool (process cfg w data s).1
     = last_seen_pool (detect_flip cfg w data s).1 /\
   last_alert_time (process cfg w data s).1 !! "failover"
     = last_alert_time (detect_flip cfg w data s).1 !! "failover" /\
   failover_calls (process cfg w data s).2 = (detect_flip cfg w data s).2) /\
  (window (process cfg w data s).1 = window (track_errors cfg w data s).1 /\
   alerted_error (process cfg w data s).1
     = alerted_error (track_errors cfg w data s).1 /\
   last_alert_time (process cfg w data s).1 !! "error_rate"
     = last_alert_time (track_errors cfg w data s).1 !! "error_rate" /\
   rate_calls (process cfg w data s).2 = (track_errors cfg w data s).2).
Proof.
  rewrite process_eq. cbn [fst snd].
  destruct (track_errors_failover_frame cfg w data (detect_flip cfg w data s).1)
    as (Hseen & Htime & Hcalls).
  destruct (detect_flip_rate_frame cfg w data s) as (Hw & Ha & Ht & Hc).
  destruct (track_errors_ext cfg w data (detect_flip cfg w data s).1 s Hw Ha Ht)
    as (Hw' & Ha' & Ht' & Hc').
  split.
  - split; [exact Hseen|]. split; [exact Htime|].
    now rewrite failover_calls_app, Hcalls, app_nil_r, detect_flip_calls_failover.
  - split; [exact Hw'|]. split; [exact Ha'|]. split; [exact Ht'|].
    now rewrite rate_calls_app, Hc, track_errors_calls_rate, Hc'.
Qed.

Lemma init_state cfg s :
  init cfg = Returned s ->
  last_seen_pool s = ACTIVE_POOL cfg /\
  alerted_error s = false /\
  last_alert_time s =
    <[ "error_rate" := 0%float ]> (<[ "failover" := 0%float ]> ∅).
Proof.
  unfold init. destruct (deque_new (WINDOW_SIZE cfg)); simpl; [|discriminate].
  intros [= <-]. auto.
Qed.

Lemma flip_empty_seen p : flip p EmptyString = false.
Proof. unfold flip. destruct p as [v|]; [|reflexivity]. now rewrite andb_false_r. Qed.

(** X15.  Started with an empty [ACTIVE_POOL] the loop never detects a
    flip: whatever it reads, the tracked pool stays empty, no failover
    notice is handed to [send_slack] and the failover time stamp stays 0. *)
Theorem empty_active_pool_disables_failover (cfg : Config)
    (input : list (string * World)) (r : State * list call) :
  ACTIVE_POOL cfg = EmptyString ->
  main cfg input = Returned r ->
  last_seen_pool r.1 = EmptyString /\
  failover_calls r.2 = [] /\
  last_alert_time r.1 !! "failover" = Some 0%float.
Proof.
  intros He Hr. unfold main in Hr.
  destruct (init cfg) as [s|] eqn:Hs; simpl in Hr; [|discriminate].
  destruct (init_state cfg s Hs) as (Hseen & _ & Htimes).
  destruct (loop_invariant cfg
              (fun s => last_seen_pool s = EmptyString /\
                        last_alert_time s !! "failover" = Some 0%float)
              (fun cs => failover_calls cs = [])) with (s := s) (input := input) (r := r)
    as ((Hp & Ht) & Hq); auto.
  - intros a b Ha Hb. now rewrite failover_calls_app, Ha, Hb.
  - intros s0 w data (Hp0 & Ht0).
    rewrite process_eq. cbn [fst snd].
    destruct (track_errors_failover_frame cfg w data (detect_flip cfg w data s0).1)
      as (Hseen' & Htime' & Hcalls').
    rewrite Hseen', Htime', failover_calls_app, Hcalls', app_nil_r.
    assert (Hdf : detect_flip cfg w data s0 = (s0, [])).
    { unfold detect_flip. rewrite Hp0, flip_empty_seen. now destruct (pool data). }
    rewrite Hdf. auto.
  - split; [now rewrite Hseen|]. rewrite Htimes.
    now rewrite lookup_insert_ne.
Qed.

Lemma empty_active_pool_witness :
  exists r,
    main cfg_no_pool [("pool=green status=200", world_ok);
                      ("pool=blue status=200", world_recovered)] = Returned r /\
    last_seen_pool r.1 = EmptyString /\ failover_calls r.2 = [].
Proof.
  destruct (main cfg_no_pool [("pool=green status=200", world_ok);
                              ("pool=blue status=200", world_recovered)])
    as [r|] eqn:Hr; [|vm_compute in Hr; discriminate].
  exists r. split; [reflexivity|].
  destruct (empty_active_pool_disables_failover cfg_no_pool _ r eq_refl Hr)
    as (Hp & Hc & _).
  split; assumption.
Defined.

Lemma parsed_pool cfg line data :
  parse_line cfg line = Returned data -> pool data = line_pool line.
Proof.
  rewrite parse_line_returns. intros [= <-]. cbn [pool].
  unfold line_pool. now rewrite !fields_of_lookup.
Qed.

Lemma process_tracked_pool cfg w data s line :
  parse_line cfg line = Returned data ->
  last_seen_pool s <> EmptyString ->
  last_seen_pool (process cfg w data s).1
    = default (last_seen_pool s) (line_pool line) /\
  last_seen_pool (process cfg w data s).1 <> EmptyString.
Proof.
  intros Hd Hseen.
  rewrite process_eq. cbn [fst].
  destruct (track_errors_failover_frame cfg w data (detect_flip cfg w data s).1)
    as (-> & _).
  destruct (detect_flip_cases cfg w data s) as (_ & _ & -> & _).
  rewrite <- (parsed_pool cfg line data Hd).
  destruct (pool data) as [p|] eqn:Hp; [|split; [reflexivity|exact Hseen]].
  pose proof (parsed_pool_truthy cfg line data p Hd Hp) as Htp.
  assert (Hpne : p <> EmptyString) by (intros ->; discriminate).
  unfold flip. rewrite Htp. simpl.
  destruct (last_seen_pool s) as [|c seen] eqn:Hs; [contradiction|]. simpl.
  destruct (String.eqb_spec p (String c seen)) as [->|Hne]; simpl;
    split; try reflexivity; try assumption; discriminate.
Qed.

Lemma loop_tracked_pool cfg s input r :
  last_seen_pool s <> EmptyString ->
  loop cfg s input = Returned r ->
  last_seen_pool r.1 = pool_after (last_seen_pool s) input /\
  last_seen_pool r.1 <> EmptyString.
Proof.
  revert s r. induction input as [|[line w] rest IH]; intros s r Hseen.
  - simpl. intros [= <-]. split; [reflexivity|exact Hseen].
  - destruct (loop_cons cfg s line w rest) as (data & Hd & ->). cbn zeta.
    destruct (loop cfg (process cfg w data s).1 rest) as [r'|] eqn:Hr';
      simpl; [|discriminate].
    intros [= <-]. cbn [fst].
    destruct (process_tracked_pool cfg w data s line Hd Hseen) as (Hp & Hne).
    destruct (IH _ r' Hne Hr') as (Hp' & Hne').
    split; [|exact Hne']. rewrite Hp', Hp. reflexivity.
Qed.

(** X16.  Started with an [ACTIVE_POOL] that is not empty, the tracked
    pool after any run is the pool of the last line that reported one, and
    [ACTIVE_POOL] when no line did; it is never empty. *)
Theorem tracked_pool_is_last_reported (cfg : Config)
    (input : list (string * World)) (r : State * list call) :
  ACTIVE_POOL cfg <> EmptyString ->
  main cfg input = Returned r ->
  last_seen_pool r.1 = pool_after (ACTIVE_POOL cfg) input /\
  last_seen_pool r.1 <> EmptyString.
Proof.
  intros Hne Hr. unfold main in Hr.
  destruct (init cfg) as [s|] eqn:Hs; simpl in Hr; [|discriminate].
  destruct (init_state cfg s Hs) as (Hseen & _).
  rewrite <- Hseen in *. exact (loop_tracked_pool cfg s input r Hne Hr).
Qed.

Lemma tracked_pool_witness :
  exists r,
    main cfg_default [("pool=green status=200", world_ok);
                      ("status=200 upstream_addr=app-blue:3000", world_ok);
                      ("status=404", world_ok)] = Returned r /\
    last_seen_pool r.1 = "blue".
Proof.
  destruct (main cfg_default [("pool=green status=200", world_ok);
                              ("status=200 upstream_addr=app-blue:3000", world_ok);
                              ("status=404", world_ok)])
    as [r|] eqn:Hr; [|vm_compute in Hr; discriminate].
  exists r. split; [reflexivity|].
  assert (Hne : ACTIVE_POOL cfg_default <> EmptyString) by discriminate.
  destruct (tracked_pool_is_last_reported cfg_default _ r Hne Hr) as (Hp & _).
  rewrite Hp. vm_compute. reflexivity.
Defined.

Lemma send_slack_no_url cfg post :
  SLACK_WEBHOOK_URL cfg = None \/ SLACK_WEBHOOK_URL cfg = Some EmptyString ->
  send_slack cfg post = false.
Proof. unfold send_slack. now intros [-> | ->]. Qed.

(** X17.  Without a webhook URL (unset or empty) every call of
    [send_slack] returns false: whatever the loop reads, the two time stamps
    stay 0 and [alerted_error] stays false, so no cooldown ever starts. *)
Theorem no_webhook_no_state_change (cfg : Config)
    (input : list (string * World)) (r : State * list call) :
  SLACK_WEBHOOK_URL cfg = None \/ SLACK_WEBHOOK_URL cfg = Some EmptyString ->
  main cfg input = Returned r ->
  Forall (fun c : call => c.2 = false) r.2 /\
  alerted_error r.1 = false /\
  last_alert_time r.1 =
    <[ "error_rate" := 0%float ]> (<[ "failover" := 0%float ]> ∅).
Proof.
  intros Hurl Hr. unfold main in Hr.
  destruct (init cfg) as [s|] eqn:Hs; simpl in Hr; [|discriminate].
  destruct (init_state cfg s Hs) as (_ & Ha & Ht).
  destruct (loop_invariant cfg
              (fun s => alerted_error s = false /\
                        last_alert_time s =
                          <[ "error_rate" := 0%float ]> (<[ "failover" := 0%float ]> ∅))
              (fun cs => Forall (fun c : call => c.2 = false) cs))
    with (s := s) (input := input) (r := r) as ((Ha' & Ht') & Hq); auto.
  - intros a b Hqa Hqb. apply Forall_app. now split.
  - intros s0 w data (Ha0 & Ht0).
    rewrite process_eq. cbn [fst snd].
    destruct (detect_flip_cases cfg w data s0) as (_ & Hda & _ & Hd).
    destruct (track_errors_cases cfg w data (detect_flip cfg w data s0).1)
      as (_ & Htr).
    pose proof (send_slack_no_url cfg (post_flip w) Hurl) as Hf.
    pose proof (send_slack_no_url cfg (post_rate w) Hurl) as Hg.
    destruct Hd as [(Hdt & Hdc) | (_ & Hsent & _)]; [|congruence].
    destruct Htr as [(Htt & Hta & Htc) | (_ & Hsent & _)]; [|congruence].
    split; [split|].
    + now rewrite Hta, Hda.
    + now rewrite Htt, Hdt.
    + apply Forall_app. split.
      * destruct Hdc as [-> | (a & -> & _)]; repeat constructor.
      * destruct Htc as [-> | (a & -> & _)]; repeat constructor.
Qed.

Lemma no_webhook_witness :
  exists r,
    main cfg_no_webhook [("pool=green status=500", world_ok);
                         ("pool=blue status=500", world_later)] = Returned r /\
    length r.2 = 4%nat /\
    Forall (fun c : call => c.2 = false) r.2 /\
    alerted_error r.1 = false.
Proof.
  destruct (main cfg_no_webhook [("pool=green status=500", world_ok);
                                 ("pool=blue status=500", world_later)])
    as [r|] eqn:Hr; [|vm_compute in Hr; discriminate].
  exists r. split; [reflexivity|].
  destruct (no_webhook_no_state_change cfg_no_webhook _ r (or_introl eq_refl) Hr)
    as (Hq & Ha & _).
  split; [|split; assumption].
  vm_compute in Hr. injection Hr as <-. reflexivity.
Defined.

Lemma detect_flip_armed cfg w data s armed :
  armed_after armed (detect_flip cfg w data s).2 = armed.
Proof.
  destruct (detect_flip_cases cfg w data s) as (_ & _ & _ & H).
  destruct H as [(_ & [Hc|(a & Hc & Hf & _)]) | (_ & _ & a & Hc & Hf)];
    rewrite Hc; [reflexivity| |]; destruct a; try discriminate; reflexivity.
Qed.

Lemma track_errors_armed cfg w data s :
  alerted_error (track_errors cfg w data s).1
    = armed_after (alerted_error s) (track_errors cfg w data s).2.
Proof.
  unfold track_errors.
  destruct (1 <=? len (append (sample data) (window s))); [|reflexivity].
  destruct (ERROR_RATE_THRESHOLD cfg <? error_rate (append (sample data) (window s)))%float.
  - destruct (MAINTENANCE_MODE cfg); [reflexivity|].
    destruct (cooldown_over cfg (clock_rate w) (last_alert_time s) "error_rate");
      [|reflexivity].
    destruct (send_slack cfg (post_rate w)); reflexivity.
  - destruct (alerted_error s &&
              cooldown_over cfg (clock_rate w) (last_alert_time s) "error_rate");
      [|reflexivity].
    destruct (send_slack cfg (post_rate w)); reflexivity.
Qed.

Lemma loop_armed cfg s input r :
  loop cfg s input = Returned r ->
  alerted_error r.1 = armed_after (alerted_error s) r.2.
Proof.
  revert s r. induction input as [|[line w] rest IH]; intros s r.
  - simpl. now intros [= <-].
  - destruct (loop_cons cfg s line w rest) as (data & _ & ->). cbn zeta.
    destruct (loop cfg (process cfg w data s).1 rest) as [r'|] eqn:Hr';
      simpl; [|discriminate].
    intros [= <-]. cbn [fst snd].
    rewrite (IH _ r' Hr'). unfold armed_after. rewrite foldl_app. f_equal.
    rewrite process_eq. cbn [fst snd]. rewrite foldl_app.
    fold (armed_after (alerted_error s) (detect_flip cfg w data s).2).
    rewrite detect_flip_armed, track_errors_armed.
    destruct (detect_flip_rate_frame cfg w data s) as (_ & -> & _).
    reflexivity.
Qed.

(** X18.  After any run [alerted_error] tells which error-rate message
    was delivered last: it is true when that was an elevated-rate alert, and
    false when it was a recovery notice or when none was delivered. *)
Theorem alerted_error_follows_deliveries (cfg : Config)
    (input : list (string * World)) (r : State * list call) :
  main cfg input = Returned r ->
  alerted_error r.1 = armed_after false r.2.
Proof.
  unfold main. destruct (init cfg) as [s|] eqn:Hs; simpl; [|discriminate].
  intros Hr. destruct (init_state cfg s Hs) as (_ & Ha & _).
  rewrite <- Ha. exact (loop_armed cfg s input r Hr).
Qed.

Lemma alerted_error_witness :
  exists r,
    main cfg_small [("status=500", world_ok); ("status=200", world_ok);
                    ("status=200", world_recovered)] = Returned r /\
    length r.2 = 2%nat /\
    alerted_error r.1 = false.
Proof.
  destruct (main cfg_small [("status=500", world_ok); ("status=200", world_ok);
                            ("status=200", world_recovered)])
    as [r|] eqn:Hr; [|vm_compute in Hr; discriminate].
  exists r. split; [reflexivity|].
  rewrite (alerted_error_follows_deliveries cfg_small _ r Hr).
  vm_compute in Hr. injection Hr as <-. split; reflexivity.
Defined.

Lemma detect_flip_justified cfg w data s c :
  In c (detect_flip cfg w data s).2 -> justified cfg w data s c.
Proof.
  unfold detect_flip. destruct (pool data) as [p|] eqn:Hp; [|intros []].
  destruct (flip (Some p) (last_seen_pool s)) eqn:Hf; [|intros []].
  destruct (MAINTENANCE_MODE cfg) eqn:Hm; [intros []|].
  destruct (cooldown_over cfg (clock_flip w) (last_alert_time s) "failover") eqn:Hc;
    [|intros []].
  simpl. intros [<- | []]. unfold justified. simpl.
  rewrite Hp. auto 10.
Qed.

Lemma track_errors_justified cfg w data s c :
  In c (track_errors cfg w data s).2 -> justified cfg w data s c.
Proof.
  unfold track_errors.
  destruct (1 <=? len (append (sample data) (window s))); [|intros []].
  destruct (ERROR_RATE_THRESHOLD cfg <? error_rate (append (sample data) (window s)))%float
    eqn:Hr.
  - destruct (MAINTENANCE_MODE cfg) eqn:Hm; [intros []|].
    destruct (cooldown_over cfg (clock_rate w) (last_alert_time s) "error_rate") eqn:Hc;
      [|intros []].
    destruct (send_slack cfg (post_rate w)) eqn:Hs; simpl;
      intros [<- | []]; unfold justified; simpl; rewrite ?Hs; auto 10.
  - destruct (alerted_error s) eqn:Ha; [|intros []]. simpl.
    destruct (cooldown_over cfg (clock_rate w) (last_alert_time s) "error_rate") eqn:Hc;
      [|intros []].
    destruct (send_slack cfg (post_rate w)) eqn:Hs; simpl;
      intros [<- | []]; unfold justified; simpl; rewrite ?Hs; auto 10.
Qed.

(** Being justified depends on the state only through what the error-rate
    side reads, for an error-rate message. *)
Lemma justified_rate_ext cfg w data s s' c :
  is_failover c.1 = false ->
  window s = window s' ->
  alerted_error s = alerted_error s' ->
  last_alert_time s !! "error_rate" = last_alert_time s' !! "error_rate" ->
  justified cfg w data s c -> justified cfg w data s' c.
Proof.
  intros Hk Hw Ha Ht. unfold justified.
  rewrite Hw, Ha, (cooldown_over_ext cfg (clock_rate w) _ _ _ Ht).
  destruct c.1; [discriminate|tauto|tauto].
Qed.

(** X6.  Every call of [send_slack] in an iteration is justified by the
    state before it.  A failover notice is sent only with maintenance mode
    off, on a flip, with the failover cooldown over, and names the pool
    tracked before and the record's pool.  An elevated-rate alert is sent
    only with maintenance mode off, a rate above the threshold and the
    error-rate cooldown over.  A recovery notice is sent only with
    [alerted_error] set, a rate not above the threshold and the error-rate
    cooldown over. *)
Theorem every_call_is_justified (cfg : Config) (s : State) (line : string)
    (w : World) :
  exists data r,
    parse_line cfg line = Returned data /\
    step cfg s line w = Returned r /\
    Forall (justified cfg w data s) r.2.
Proof.
  destruct (step_returns cfg s line w) as (data & Hd & Hr).
  exists data. eexists. split; [exact Hd|]. split; [exact Hr|].
  rewrite process_eq. cbn [snd]. apply Forall_app. split.
  - apply Forall_forall. intros c Hc. apply list_elem_of_In in Hc.
    now apply detect_flip_justified.
  - apply Forall_forall. intros c Hc. apply list_elem_of_In in Hc.
    destruct (detect_flip_rate_frame cfg w data s) as (Hw & Ha & Ht & _).
    apply (justified_rate_ext cfg w data (detect_flip cfg w data s).1 s c);
      try assumption.
    + pose proof (track_errors_calls_rate cfg w data (detect_flip cfg w data s).1)
        as Hk.
      rewrite <- Hk in Hc. unfold rate_calls in Hc.
      apply list_elem_of_In in Hc. apply list_elem_of_filter in Hc. tauto.
    + now apply track_errors_justified.
Qed.

(** * Reading a status made of digits *)

Lemma append_empty_r s : String.append s EmptyString = s.
Proof.
  induction s as [|c s IH]; [reflexivity|].
  change (String c (String.append s EmptyString) = String c s).
  f_equal. exact IH.
Qed.

Lemma rev_onto_rev_onto s acc acc' :
  Py.rev_onto (Py.rev_onto s acc) acc' = Py.rev_onto acc (String.append s acc').
Proof.
  revert acc acc'. induction s as [|c s IH]; intros acc acc'; simpl;
    [reflexivity|]. rewrite IH. reflexivity.
Qed.

Lemma rev_rev s : Py.rev (Py.rev s) = s.
Proof.
  unfold Py.rev. rewrite rev_onto_rev_onto. cbn [Py.rev_onto].
  apply append_empty_r.
Qed.

Lemma drop_while_id p s :
  (forall c, first_char s = Some c -> p c = false) -> Py.drop_while p s = s.
Proof.
  destruct s as [|c s]; [reflexivity|]. simpl. intros H.
  now rewrite (H c eq_refl).
Qed.

(** [strip] changes nothing in a string whose ends are outside the set. *)
Lemma strip_id p s : ends_free_of p s -> Py.strip p s = s.
Proof.
  intros [Hfirst Hlast]. unfold Py.strip.
  rewrite (drop_while_id p s Hfirst).
  rewrite (drop_while_id p (Py.rev s)); [apply rev_rev|].
  intros c. unfold Py.rev. rewrite rev_onto_first. simpl.
  destruct (last_char s) as [d|] eqn:Hl; [|discriminate].
  intros [= <-]. now apply Hlast.
Qed.

Lemma all_chars_first q s c :
  all_chars q s = true -> first_char s = Some c -> q c = true.
Proof.
  destruct s as [|d s]; [discriminate|]. simpl.
  intros H [= <-]. now apply andb_prop in H as [H _].
Qed.

Lemma all_chars_last q s c :
  all_chars q s = true -> last_char s = Some c -> q c = true.
Proof.
  induction s as [|d s IH]; [discriminate|].
  intros H. cbn [all_chars] in H. apply andb_prop in H as [Hd Hs].
  rewrite last_char_cons. destruct (last_char s) as [e|] eqn:He.
  - intros [= <-]. now apply IH.
  - now intros [= <-].
Qed.

Lemma digit_not_space c : Py.is_digit c = true -> Py.is_space c = false.
Proof. destruct c as [[] [] [] [] [] [] [] []]; intros H; try reflexivity; discriminate H. Qed.

Lemma digit_val_range c : Py.is_digit c = true -> 0 <= Py.digit_val c <= 9.
Proof.
  unfold Py.is_digit, Py.in_range, Py.digit_val. intros H.
  apply andb_prop in H as [H1 H2].
  apply N.leb_le in H1. apply N.leb_le in H2. lia.
Qed.

Lemma digits_run s acc n :
  all_chars Py.is_digit s = true ->
  Py.digits acc n true s = Some (decimal_from acc s, (n + String.length s)%nat).
Proof.
  revert acc n. induction s as [|c s IH]; intros acc n H; simpl.
  - now rewrite Nat.add_0_r.
  - simpl in H. apply andb_prop in H as [Hc Hs].
    rewrite Hc, (IH _ _ Hs). f_equal. f_equal. lia.
Qed.

Lemma decimal_from_nonneg s acc :
  all_chars Py.is_digit s = true -> 0 <= acc -> 0 <= decimal_from acc s.
Proof.
  revert acc. induction s as [|c s IH]; intros acc H Hacc; simpl; [exact Hacc|].
  simpl in H. apply andb_prop in H as [Hc Hs].
  apply IH; [exact Hs|]. pose proof (digit_val_range c Hc). lia.
Qed.

(** [int] on a run of digits within the limit. *)
Lemma int_of_digits md v :
  v <> EmptyString ->
  all_chars Py.is_digit v = true ->
  (md = 0 \/ String.length v <= md)%nat ->
  Py.int md v = Returned (decimal v).
Proof.
  intros Hne Hd Hmd. unfold Py.int.
  rewrite strip_id.
  2: { split; intros c Hc; apply digit_not_space.
       - exact (all_chars_first _ _ _ Hd Hc).
       - exact (all_chars_last _ _ _ Hd Hc). }
  destruct v as [|c r]; [contradiction|].
  assert (Hc : Py.is_digit c = true) by (simpl in Hd; now apply andb_prop in Hd).
  assert (Hu : Py.unsigned md (String c r) = Returned (decimal (String c r))).
  { unfold Py.unsigned, decimal. cbn [Py.digits decimal_from]. rewrite Hc.
    simpl in Hd. apply andb_prop in Hd as [_ Hr].
    rewrite (digits_run r _ 1 Hr).
    replace (Nat.ltb 0 md && Nat.ltb md (1 + String.length r))%bool with false;
      [reflexivity|].
    symmetry. simpl in Hmd. destruct Hmd as [-> | Hle]; [reflexivity|].
    apply andb_false_iff. right. apply Nat.ltb_ge. simpl. lia. }
  rewrite <- Hu.
  destruct c as [[] [] [] [] [] [] [] []]; try discriminate Hc; reflexivity.
Qed.

(** X19.  A status whose value is a run of decimal digits, no longer than
    the interpreter's limit, is read as the number it denotes, which is not
    negative. *)
Theorem digit_status_is_its_decimal_value (cfg : Config) (line v : string) :
  last_value "status" line = Some v ->
  v <> EmptyString ->
  all_chars Py.is_digit v = true ->
  (int_max_str_digits cfg = 0 \/ String.length v <= int_max_str_digits cfg)%nat ->
  exists data,
    parse_line cfg line = Returned data /\
    status data = Some (decimal v) /\
    0 <= decimal v.
Proof.
  intros Hv Hne Hd Hmd.
  eexists. split; [apply parse_line_returns|]. cbn [status].
  rewrite fields_of_lookup, Hv. unfold status_of.
  rewrite (int_of_digits _ v Hne Hd Hmd).
  split; [reflexivity|]. now apply decimal_from_nonneg.
Qed.

Lemma digit_status_witness :
  exists data,
    parse_line cfg_default "GET / status=0503 pool=blue" = Returned data /\
    status data = Some 503.
Proof.
  destruct (digit_status_is_its_decimal_value cfg_default
              "GET / status=0503 pool=blue" "0503") as (data & Hp & Hs & _).
  - vm_compute. reflexivity.
  - discriminate.
  - reflexivity.
  - right. vm_compute. lia.
  - exists data. split; [exact Hp|]. rewrite Hs. reflexivity.
Defined.
